(** * Credit calculator and usage service

    A shallow embedding of [src/utils/calculator.py] (the chain of credit
    handlers) and of [src/services/usage.py] (the usage service that
    resolves reports and assembles the usage entries), with the properties
    of the specification stated over it.

    Modelling conventions.
    - A Python [Decimal] is a pair of an integer coefficient and a decimal
      exponent (value [coef * 10^expo]); sums take the smaller exponent,
      products add the exponents, as [decimal] does.  Decimals are finite
      (the models reject NaN and infinities).  The context precision of 28
      significant digits is modelled where it decides an outcome:
      [Decimal.quantize] signals [InvalidOperation] when the result would
      have more digits, which a report cost does from 1E+26 credits on.
      The sums and products of the rule chain are exact: a text of fewer
      than 10^25 characters keeps them, and the quantize that follows,
      within the precision (lemma [rule_chain_within_precision]).  The
      sign of a zero is not modelled.
    - A Python [str] is a list of code points.  What the interpreter's
      Unicode database decides ([str.isalpha], [str.isalnum],
      [str.isspace], [str.lower]) is a parameter, class [Unicode].
    - The service sees the client as a Report Source that answers a
      request for an id with a report or with one of the exceptions of
      [src/core/exceptions.py]; requests are logged in the order in which
      [asyncio.gather] starts them.
    - The client of [src/services/client.py] and the route of
      [src/api/routes.py] are embedded over the libraries they call: the
      transport, [raise_for_status], the JSON decoder and the model
      validators are the parameters of class [Http]. *)

From Stdlib Require Import ZArith String Ascii Lia List Bool.
From stdpp Require Import base option list gmap strings pretty.

#[local] Set Warnings "-register-all".

Local Open Scope Z_scope.

(** ** Python decimals *)

Module Decimal.

Record t := mk { coef : Z; expo : Z }.

(** [Decimal(str(n))] for an [int] obtained from [len] or [sum]. *)
Definition of_nat (n : nat) : t := mk (Z.of_nat n) 0.

(** Coefficient of [d] once rescaled to the exponent [e <= expo d]. *)
Definition aligned (e : Z) (d : t) : Z := coef d * 10 ^ (expo d - e).

Definition add (a b : t) : t :=
  let e := Z.min (expo a) (expo b) in mk (aligned e a + aligned e b) e.

Definition sub (a b : t) : t :=
  let e := Z.min (expo a) (expo b) in mk (aligned e a - aligned e b) e.

Definition mul (a b : t) : t := mk (coef a * coef b) (expo a + expo b).

(** Comparison is by numeric value. *)
Definition compare (a b : t) : comparison :=
  let e := Z.min (expo a) (expo b) in Z.compare (aligned e a) (aligned e b).

Definition ltb (a b : t) : bool :=
  match compare a b with Lt => true | _ => false end.

Definition leb (a b : t) : bool :=
  match compare a b with Gt => false | _ => true end.

(** The builtin [max(a, b)]: the first argument unless the second one is
    strictly greater. *)
Definition max (a b : t) : t := if ltb a b then b else a.

(** Drop [k] digits of the magnitude [n], ROUND_HALF_UP: one more when the
    first dropped digit is 5 or more. *)
Definition round_half_up (n k : Z) : Z :=
  let q := n / 10 ^ k in
  if 10 ^ k <=? 2 * (n mod 10 ^ k) then q + 1 else q.

(** [d._rescale(e, ROUND_HALF_UP)]: the same number at the exponent [e],
    rounded when digits are dropped. *)
Definition rescale (e : Z) (d : t) : t :=
  if e <=? expo d then mk (aligned e d) e
  else mk (Z.sgn (coef d) * round_half_up (Z.abs (coef d)) (e - expo d)) e.

(** The precision of the default context. *)
Definition prec : Z := 28.

(** [d.quantize(Decimal(10) ** e, rounding=ROUND_HALF_UP)] in the default
    context: the rescaled number, unless its coefficient has more than
    [prec] digits; then the operation signals [InvalidOperation] ([None]). *)
Definition quantize (e : Z) (d : t) : option t :=
  let ans := rescale e d in
  if Z.abs (coef ans) <? 10 ^ prec then Some ans else None.

End Decimal.

Abbreviation Decimal := Decimal.t.

(** The amount rounded to cents, ROUND_HALF_UP. *)
Definition round_cents (d : Decimal) : Decimal := Decimal.rescale (-2) d.

(** [x.quantize(Decimal("0.01"), rounding=ROUND_HALF_UP)] *)
Definition quantize_cents (d : Decimal) : option Decimal := Decimal.quantize (-2) d.

(** ** Python strings *)

Definition codepoint := N.
Definition str := list codepoint.

(** The literal [s] as a [str] (one code point per character). *)
Fixpoint str_of (s : string) : str :=
  match s with
  | EmptyString => []
  | String c r => N_of_ascii c :: str_of r
  end.

(** The character tables of the interpreter. [lower] yields a string:
    lower-casing one code point can give several. *)
Class Unicode := {
  isalpha : codepoint -> bool;
  isalnum : codepoint -> bool;
  isspace : codepoint -> bool;
  lower : codepoint -> str
}.

(** The tables on the ASCII range, where they are fixed: letters, letters
    and digits, the whitespace characters TAB..CR, FS..US and the space. *)
Definition ascii_upper (c : codepoint) : bool := ((65 <=? c) && (c <=? 90))%N.
Definition ascii_lower (c : codepoint) : bool := ((97 <=? c) && (c <=? 122))%N.
Definition ascii_digit (c : codepoint) : bool := ((48 <=? c) && (c <=? 57))%N.
Definition ascii_isalpha (c : codepoint) : bool := ascii_upper c || ascii_lower c.
Definition ascii_isalnum (c : codepoint) : bool := ascii_isalpha c || ascii_digit c.
Definition ascii_isspace (c : codepoint) : bool :=
  (((9 <=? c) && (c <=? 13)) || ((28 <=? c) && (c <=? 32)))%N.
Definition ascii_tolower (c : codepoint) : str :=
  if ascii_upper c then [(c + 32)%N] else [c].

Definition is_ascii (c : codepoint) : bool := (c <? 128)%N.

(** A database agrees with ASCII when it has the ASCII tables below 128. *)
Definition ascii_compatible (U : Unicode) : Prop :=
  forall c, is_ascii c = true ->
    isalpha c = ascii_isalpha c /\ isalnum c = ascii_isalnum c /\
    isspace c = ascii_isspace c /\ lower c = ascii_tolower c.

(** The tables restricted to ASCII: nothing above 127 is a letter, a digit
    or a space. *)
Definition ascii_only : Unicode :=
  {| isalpha := ascii_isalpha; isalnum := ascii_isalnum;
     isspace := ascii_isspace; lower := ascii_tolower |}.

(** [str.split()] with no separator: the maximal runs of non-whitespace.
    [cur] is the run being read, reversed. *)
Fixpoint split_from `{Unicode} (cur : str) (s : str) : list str :=
  match s with
  | [] => match cur with [] => [] | _ => [rev cur] end
  | c :: r =>
      if isspace c
      then match cur with [] => split_from [] r | _ => rev cur :: split_from [] r end
      else split_from (c :: cur) r
  end.

Definition split `{Unicode} (s : str) : list str := split_from [] s.

(** [s[2::3]] *)
Fixpoint slice_2_3 (s : str) : str :=
  match s with
  | _ :: _ :: c :: r => c :: slice_2_3 r
  | _ => []
  end.

(** [len(set(words))] *)
Definition distinct_count (words : list str) : nat :=
  size (list_to_set words : gset str).

(** ** Models ([src/models/domain.py], [src/models/api.py]) *)

(** [datetime] values and [datetime.isoformat]. *)
Class Datetime := { datetime : Type; isoformat : datetime -> string }.

Module Report.
Record t := mk { id : Z; name : string; credit_cost : Decimal }.
End Report.
Abbreviation Report := Report.t.

Module Message.
Record t `{Datetime} := mk {
  id : Z;
  text : str;
  timestamp : datetime;
  report_id : option Z
}.
Arguments mk {_} _ _ _ _.
End Message.
Abbreviation Message := Message.t.

Module UsageEntry.
Record t := mk {
  message_id : Z;
  timestamp : string;
  report_name : option string;
  credits_used : Decimal
}.
End UsageEntry.
Abbreviation UsageEntry := UsageEntry.t.

Record UsageResponse := { usage : list UsageEntry }.

(** ** Exceptions ([src/core/exceptions.py], [decimal]) and outcomes *)

(** An [httpx] response, as far as the service reads it. *)
Record Response := { status_code : Z }.

(** The [httpx.HTTPError] an [APIError] wraps.  Only a status error carries
    a [response] attribute; a connection or timeout error has none. *)
Record HTTPError := { http_message : string; response : option Response }.

Inductive Exception :=
  | APIError (message : string) (original_error : HTTPError)
  | MessageParsingError (message : string)
  | ReportParsingError (report_id : Z) (message : string)
  | AttributeError (attribute : string)
  | InvalidOperation.

Definition NOT_FOUND : Z := 404.

Inductive outcome (A : Type) :=
  | Returned (a : A)
  | Raised (e : Exception).
Arguments Returned {A} a.
Arguments Raised {A} e.

(** Go on with the value, or pass the exception on. *)
Definition and_then {A B} (o : outcome A) (k : A -> outcome B) : outcome B :=
  match o with Returned a => k a | Raised e => Raised e end.

(** A list built element by element: the first exception ends it. *)
Fixpoint collect {A} (os : list (outcome A)) : outcome (list A) :=
  match os with
  | [] => Returned []
  | o :: rest => and_then o (fun a => and_then (collect rest) (fun l => Returned (a :: l)))
  end.

(** [quantize] to cents, raising on the signal (the default context traps
    [InvalidOperation]). *)
Definition quantized (d : Decimal) : outcome Decimal :=
  match quantize_cents d with
  | Some q => Returned q
  | None => Raised InvalidOperation
  end.

(** ** The calculator ([src/utils/calculator.py]) *)

Inductive Handler :=
  | BaseCostHandler
  | CharacterCountHandler
  | WordLengthHandler
  | ThirdVowelsHandler
  | LengthPenaltyHandler
  | UniqueWordBonusHandler
  | PalindromeHandler.

(** A handler object with its [_next_handler]. *)
Inductive Chain := Link (handler : Handler) (next_handler : option Chain).

Definition BASE_COST := Decimal.mk 10 (-1).
Definition CHARACTER_CREDIT := Decimal.mk 5 (-2).
Definition SHORT_WORD_LENGTH := 3%nat.
Definition MEDIUM_WORD_LENGTH := 7%nat.
Definition SHORT_WORD_CREDIT := Decimal.mk 1 (-1).
Definition MEDIUM_WORD_CREDIT := Decimal.mk 2 (-1).
Definition LONG_WORD_CREDIT := Decimal.mk 3 (-1).
Definition VOWEL_CREDIT := Decimal.mk 3 (-1).
Definition VOWELS : list codepoint := str_of "aeiouAEIOU".
Definition MAX_LENGTH_WITHOUT_PENALTY := 100%nat.
Definition LENGTH_PENALTY := Decimal.mk 50 (-1).
Definition UNIQUE_WORD_DISCOUNT := Decimal.mk 20 (-1).
Definition MINIMUM_CREDITS := Decimal.mk 10 (-1).
Definition PALINDROME_MULTIPLIER := Decimal.mk 20 (-1).

Section Calculator.
Context `{Unicode} `{Datetime}.

(** [[word for word in text.split() if any(c.isalpha() for c in word)]] *)
Definition words (s : str) : list str :=
  List.filter (fun word => existsb isalpha word) (split s).

Definition word_credit (word : str) : Decimal :=
  if (length word <=? SHORT_WORD_LENGTH)%nat then SHORT_WORD_CREDIT
  else if (length word <=? MEDIUM_WORD_LENGTH)%nat then MEDIUM_WORD_CREDIT
  else LONG_WORD_CREDIT.

Definition is_vowel (c : codepoint) : bool := existsb (N.eqb c) VOWELS.

Definition vowel_count (s : str) : nat :=
  length (List.filter is_vowel (slice_2_3 s)).

Definition cleaned (s : str) : str :=
  concat (map lower (List.filter isalnum s)).

Definition _is_palindrome (s : str) : bool :=
  bool_decide (cleaned s = rev (cleaned s)).

(** The [process] method of each handler class. *)
Definition process (h : Handler) (message : Message) (credits : Decimal) : Decimal :=
  match h with
  | BaseCostHandler => Decimal.add credits BASE_COST
  | CharacterCountHandler =>
      Decimal.add credits
        (Decimal.mul CHARACTER_CREDIT (Decimal.of_nat (length (Message.text message))))
  | WordLengthHandler =>
      fold_left (fun credits word => Decimal.add credits (word_credit word))
        (words (Message.text message)) credits
  | ThirdVowelsHandler =>
      Decimal.add credits
        (Decimal.mul VOWEL_CREDIT (Decimal.of_nat (vowel_count (Message.text message))))
  | LengthPenaltyHandler =>
      if (MAX_LENGTH_WITHOUT_PENALTY <? length (Message.text message))%nat
      then Decimal.add credits LENGTH_PENALTY
      else credits
  | UniqueWordBonusHandler =>
      let ws := words (Message.text message) in
      let credits :=
        if (length ws =? distinct_count ws)%nat
        then Decimal.sub credits UNIQUE_WORD_DISCOUNT
        else credits in
      Decimal.max MINIMUM_CREDITS credits
  | PalindromeHandler =>
      if _is_palindrome (Message.text message)
      then Decimal.mul credits PALINDROME_MULTIPLIER
      else credits
  end.

(** [Handler.handle]: process, then hand the result to the next handler.
    The second component lists the handlers whose [process] ran. *)
Fixpoint handle (c : Chain) (message : Message) (credits : Decimal)
  : Decimal * list Handler :=
  match c with
  | Link h next =>
      let result := process h message credits in
      match next with
      | Some n =>
          let '(final, ran) := handle n message result in (final, h :: ran)
      | None => (result, [h])
      end
  end.

Record Calculator := { calculator_handler : Chain }.

(** [Calculator.__init__]: the seven handlers, linked by [set_next]. *)
Definition Calculator_init : Calculator :=
  {| calculator_handler :=
       Link BaseCostHandler (Some (
       Link CharacterCountHandler (Some (
       Link WordLengthHandler (Some (
       Link ThirdVowelsHandler (Some (
       Link LengthPenaltyHandler (Some (
       Link UniqueWordBonusHandler (Some (
       Link PalindromeHandler None)))))))))))) |}.

(** What [calculate] ends with.  With a report it quantizes a cost of any
    size, which can signal.  Without one it quantizes the amount of the
    chain, which stays below 12.00 + 0.90 per character: a Python [str]
    has fewer than 2^63 characters, and for fewer than 10^25 the quantize
    does not signal (lemma [rule_chain_within_precision]); there
    [calculate] returns, the amount rescaled. *)
Definition calculate_result (report : option Report) : Type :=
  match report with
  | Some _ => outcome Decimal
  | None => Decimal
  end.

(** [Calculator.calculate], with the handlers that ran. *)
Definition calculate_traced (self : Calculator) (message : Message)
    (report : option Report) : calculate_result report * list Handler :=
  match report as r return calculate_result r * list Handler with
  | Some r => (quantized (Report.credit_cost r), [])
  | None =>
      let '(calculated_credits, ran) :=
        handle (calculator_handler self) message (Decimal.mk 0 (-1)) in
      (round_cents calculated_credits, ran)
  end.

Definition calculate (self : Calculator) (message : Message)
    (report : option Report) : calculate_result report :=
  fst (calculate_traced self message report).

(** The credits with which the chain of [Calculator_init] reaches the
    handler [h], starting from [Decimal("0.0")]. *)
Definition credits_before (h : Handler) (message : Message) : Decimal :=
  let step h c := process h message c in
  let c1 := step BaseCostHandler (Decimal.mk 0 (-1)) in
  let c2 := step CharacterCountHandler c1 in
  let c3 := step WordLengthHandler c2 in
  let c4 := step ThirdVowelsHandler c3 in
  let c5 := step LengthPenaltyHandler c4 in
  let c6 := step UniqueWordBonusHandler c5 in
  match h with
  | BaseCostHandler => Decimal.mk 0 (-1)
  | CharacterCountHandler => c1
  | WordLengthHandler => c2
  | ThirdVowelsHandler => c3
  | LengthPenaltyHandler => c4
  | UniqueWordBonusHandler => c5
  | PalindromeHandler => c6
  end.

End Calculator.


(** ** The client boundary *)

(** [src/services/client.py] seen from the service: what
    [messages.get_current_period()] and [reports.get(report_id)] answer. *)
Record Client `{Datetime} := {
  messages_get_current_period : outcome (list Message);
  reports_get : Z -> outcome Report
}.

(** ** Effects: the log of the report requests issued so far *)

Definition IO (A : Type) : Type := list Z -> outcome A * list Z.

Definition ret {A} (a : A) : IO A := fun log => (Returned a, log).

Definition raise {A} (e : Exception) : IO A := fun log => (Raised e, log).

(** A computation that issues no request. *)
Definition lift {A} (o : outcome A) : IO A := fun log => (o, log).

Definition bind {A B} (c : IO A) (k : A -> IO B) : IO B :=
  fun log =>
    match c log with
    | (Returned a, log') => k a log'
    | (Raised e, log') => (Raised e, log')
    end.

(** [try: c  except ...: h e] *)
Definition try_except {A} (c : IO A) (h : Exception -> IO A) : IO A :=
  fun log =>
    match c log with
    | (Returned a, log') => (Returned a, log')
    | (Raised e, log') => h e log'
    end.

#[global] Instance IO_ret : MRet IO := @ret.
#[global] Instance IO_bind : MBind IO := fun A B k c => bind c k.

(** Start the tasks in list order and collect what each one ends with. *)
Fixpoint start_all {A} (tasks : list (IO A)) (log : list Z)
  : list (outcome A) * list Z :=
  match tasks with
  | [] => ([], log)
  | task :: rest =>
      let '(o, log1) := task log in
      let '(os, log2) := start_all rest log1 in
      (o :: os, log2)
  end.

Definition returned {A} (o : outcome A) : option A :=
  match o with Returned a => Some a | Raised _ => None end.

Definition raised {A} (o : outcome A) : option Exception :=
  match o with Returned _ => None | Raised e => Some e end.

(** The exception [asyncio.gather] propagates: that of the task that fails
    first.  [completion] lists task positions in the order in which the
    tasks finish; positions it omits finish last, in list order. *)
Definition first_raised {A} (completion : list nat) (outs : list (outcome A))
  : option Exception :=
  head (omap (fun i => outs !! i ≫= raised) completion ++ omap raised outs).

(** [asyncio.gather] over the tasks, with [return_exceptions=False]. *)
Definition gather {A} (completion : list nat) (tasks : list (IO A)) : IO (list A) :=
  fun log =>
    let '(outs, log') := start_all tasks log in
    match first_raised completion outs with
    | Some e => (Raised e, log')
    | None => (Returned (omap returned outs), log')
    end.

(** ** The usage service ([src/services/usage.py]) *)

Section UsageService.
Context `{Unicode} `{Datetime}.

Record UsageService := { client : Client; calculator : Calculator }.

(** The order in which the gathered requests finish. *)
Variable completion : list nat.

Definition client_reports_get (self : UsageService) (report_id : Z) : IO Report :=
  fun log => (reports_get (client self) report_id, log ++ [report_id]).

Definition client_messages_get_current_period (self : UsageService)
  : IO (list Message) :=
  fun log => (messages_get_current_period (client self), log).

(** The inner coroutine of [fetch_reports]. *)
Definition fetch_report (self : UsageService) (report_id : Z) : IO (option Report) :=
  try_except
    (report ← client_reports_get self report_id; ret (Some report))
    (fun error =>
       match error with
       | APIError _ original_error =>
           match response original_error with
           | None => raise (AttributeError "response")
           | Some r =>
               if status_code r =? NOT_FOUND then ret None else raise error
           end
       | _ => raise error
       end).

(** [{report.id: report for report in reports if report is not None}] *)
Definition report_dict (reports : list (option Report)) : gmap Z Report :=
  foldl (fun d report => <[Report.id report := report]> d) ∅ (omap (fun r => r) reports).

Definition fetch_reports (self : UsageService) (report_ids : list Z)
  : IO (gmap Z Report) :=
  match report_ids with
  | [] => ret ∅
  | _ =>
      reports ← gather completion (map (fetch_report self) report_ids);
      ret (report_dict reports)
  end.

(** [create_usage_entry] quantizes the result of [calculate] once more:
    with a report this is the checked quantize, without one the amount of
    the rule chain is rescaled, as in [calculate]. *)
Definition create_usage_entry (self : UsageService) (message : Message)
    (report : option Report) : outcome UsageEntry :=
  match report with
  | Some r =>
      and_then (calculate (calculator self) message (Some r)) (fun calculated =>
      and_then (quantized calculated) (fun credits =>
      Returned
        (UsageEntry.mk (Message.id message) (isoformat (Message.timestamp message))
           (Some (Report.name r)) credits)))
  | None =>
      let credits := round_cents (calculate (calculator self) message None) in
      Returned
        (UsageEntry.mk (Message.id message) (isoformat (Message.timestamp message))
           None credits)
  end.

(** [[m.report_id for m in messages if m.report_id is not None]] *)
Definition referenced_report_ids (messages : list Message) : list Z :=
  omap Message.report_id messages.

(** Steps of [get_current_period_usage] after the messages are there. *)
Definition build_usage (self : UsageService) (messages : list Message)
  : IO UsageResponse :=
  let report_ids := referenced_report_ids messages in
  report_map ← fetch_reports self report_ids;
  usage_entries ←
    lift (collect
            (map (fun message =>
                    create_usage_entry self message
                      (Message.report_id message ≫= (report_map !!.)))
                 messages));
  ret {| usage := usage_entries |}.

Definition get_current_period_usage (self : UsageService) : IO UsageResponse :=
  messages ← client_messages_get_current_period self;
  build_usage self messages.

(** What one [fetch_report] ends with, the request log left aside. *)
Definition resolve (self : UsageService) (report_id : Z) : outcome (option Report) :=
  fst (fetch_report self report_id []).

(** The entry of one message, given the fetched reports. *)
Definition entry_for (self : UsageService) (report_map : gmap Z Report)
    (message : Message) : outcome UsageEntry :=
  create_usage_entry self message (Message.report_id message ≫= (report_map !!.)).

(** [get_usage_service] of [src/api/dependencies.py] with the state that
    [src/main.py] sets up: the calculator is [Calculator()]. *)
Definition get_usage_service (c : Client) : UsageService :=
  {| client := c; calculator := Calculator_init |}.

(** The service over a Message Source that returns [messages] and a Report
    Source that answers [source]. *)
Definition serving (messages : list Message) (source : Z -> outcome Report)
  : UsageService :=
  get_usage_service
    {| messages_get_current_period := Returned messages; reports_get := source |}.

End UsageService.

(** ** Vocabulary of the properties *)

(** The numeric value of [d] is at least 1. *)
Definition at_least_one (d : Decimal) : Prop :=
  10 ^ Z.max 0 (- Decimal.expo d) <= Decimal.coef d * 10 ^ Z.max 0 (Decimal.expo d).

Definition ascii_str (s : str) : Prop := Forall (fun c => is_ascii c = true) s.

(** The answer of the Report Source is an [APIError] whose original error
    has a response with status 404. *)
Definition signals_not_found (o : outcome Report) : bool :=
  match o with
  | Raised (APIError _ original_error) =>
      match response original_error with
      | Some r => status_code r =? NOT_FOUND
      | None => false
      end
  | _ => false
  end.

Definition is_returned {A} (o : outcome A) : bool :=
  match o with Returned _ => true | Raised _ => false end.

(** Neither a report nor a not-found. *)
Definition fatal (o : outcome Report) : bool :=
  negb (is_returned o || signals_not_found o).

(** Run from an empty request log. *)
Definition run {A} (c : IO A) : outcome A * list Z := c [].

(** Each referenced id is requested once, and nothing else is requested. *)
Definition one_request_per_distinct_id (requests ids : list Z) : Prop :=
  forall rid,
    count_occ Z.eq_dec requests rid = if bool_decide (rid ∈ ids) then 1%nat else 0%nat.

(** ** Sample data, after [tests/api/routes_tests.py] *)

(** A [datetime] stood for by its ISO-8601 text. *)
Definition iso_text : Datetime := {| datetime := string; isoformat := fun s => s |}.

Definition tenant_report : Report :=
  Report.mk 5392 "Tenant Obligations Report" (Decimal.mk 2550 (-2)).

Definition not_found_error : Exception :=
  APIError "Failed to fetch report 9999"
    {| http_message := "Not found"; response := Some {| status_code := 404 |} |}.

(** A transport failure below HTTP: no response was received. *)
Definition connect_error : Exception :=
  APIError "Failed to fetch report 5392"
    {| http_message := "All connection attempts failed"; response := None |}.

Definition first_message : @Message iso_text :=
  @Message.mk iso_text 1 (str_of "First report")
    "2024-01-01T10:00:00+00:00"%string (Some 5392).

Definition second_message : @Message iso_text :=
  @Message.mk iso_text 2 (str_of "Second report analysis required")
    "2024-01-01T10:05:00+00:00"%string (Some 9999).

Definition third_message : @Message iso_text :=
  @Message.mk iso_text 3 (str_of "First report once more")
    "2024-01-01T10:10:00+00:00"%string (Some 5392).

(** A message without report reference, with the given text. *)
Definition text_message (s : string) : @Message iso_text :=
  @Message.mk iso_text 1 (str_of s) "2024-01-01T00:00:00+00:00"%string None.

(** A Report Source that knows report 5392 only. *)
Definition tenant_or_not_found (rid : Z) : outcome Report :=
  if rid =? 5392 then Returned tenant_report else Raised not_found_error.

(** A Report Source that answers every request with report 5392, as the
    mock of the route tests does. *)
Definition always_tenant (rid : Z) : outcome Report := Returned tenant_report.

(** A Report Source that cannot be reached. *)
Definition unreachable (rid : Z) : outcome Report := Raised connect_error.

(** ** The HTTP client ([src/services/client.py]) *)

(** What [http.get] returns: a status code and a body. *)
Record Reply := { reply_status : Z; reply_body : string }.

(** The libraries under the client: the transport, [raise_for_status]
    (the message of the status error it raises, if it raises), the JSON
    decoder of [response.json()] and the two [model_validate]. *)
Class Http `{Datetime} := {
  Json : Type;
  base_url : string;
  http_get : string -> Reply + HTTPError;
  raise_for_status : Z -> option string;
  response_json : string -> option Json;
  Report_model_validate : Json -> option Report;
  MessagesResponse_model_validate : Json -> option (list Message)
}.

(** How the first [try] block of a resource method ends. *)
Inductive fetched (J : Type) :=
  | Json_data (json_data : J)
  | HTTPError_raised (error : HTTPError)
  | ValueError_raised.
Arguments Json_data {J} json_data.
Arguments HTTPError_raised {J} error.
Arguments ValueError_raised {J}.

Definition MessageParsingError_INVALID_FORMAT : string := "Invalid message data format".
Definition MessageParsingError_UNEXPECTED_ERROR : string :=
  "Unexpected error while parsing messages".
Definition ReportParsingError_INVALID_FORMAT : string := "Invalid report data format".
Definition ReportParsingError_UNEXPECTED_ERROR : string :=
  "Unexpected error while parsing report".

Section HttpClient.
Context `{Http}.

(** [http.get(url)], [raise_for_status()], [json()]. *)
Definition get_json (url : string) : fetched Json :=
  match http_get url with
  | inr error => HTTPError_raised error
  | inl reply =>
      match raise_for_status (reply_status reply) with
      | Some m =>
          HTTPError_raised
            {| http_message := m;
               response := Some {| status_code := reply_status reply |} |}
      | None =>
          match response_json (reply_body reply) with
          | Some json_data => Json_data json_data
          | None => ValueError_raised
          end
      end
  end.

(** [Messages.get_current_period] *)
Definition Messages_get_current_period : outcome (list Message) :=
  match get_json (base_url +:+ "/messages/current-period") with
  | HTTPError_raised error => Raised (APIError "Failed to fetch messages" error)
  | ValueError_raised =>
      Raised (MessageParsingError MessageParsingError_UNEXPECTED_ERROR)
  | Json_data json_data =>
      match MessagesResponse_model_validate json_data with
      | Some messages => Returned messages
      | None => Raised (MessageParsingError MessageParsingError_INVALID_FORMAT)
      end
  end.

(** [Reports.get] *)
Definition Reports_get (report_id : Z) : outcome Report :=
  match get_json (base_url +:+ "/reports/" +:+ pretty report_id) with
  | HTTPError_raised error =>
      Raised (APIError ("Failed to fetch report " +:+ pretty report_id) error)
  | ValueError_raised =>
      Raised (ReportParsingError report_id ReportParsingError_UNEXPECTED_ERROR)
  | Json_data json_data =>
      match Report_model_validate json_data with
      | Some report => Returned report
      | None => Raised (ReportParsingError report_id ReportParsingError_INVALID_FORMAT)
      end
  end.

(** [Client()], with its two resources. *)
Definition Client_init : Client :=
  {| messages_get_current_period := Messages_get_current_period;
     reports_get := Reports_get |}.

End HttpClient.

(** ** The route ([src/api/routes.py]) *)

Definition BAD_REQUEST : Z := 400.
Definition INTERNAL_SERVER_ERROR : Z := 500.

(** How the handler of [GET /usage] ends: with the response model, with an
    [HTTPException], or with an exception it does not catch. *)
Inductive route_result :=
  | Responds (body : UsageResponse)
  | HTTPException (status : Z) (detail : string)
  | Uncaught (e : Exception).

Section Route.
Context `{Unicode} `{Datetime}.
Variable completion : list nat.

(** [get_usage]; [str(error)] is the message of a [MessageParsingError]
    and the prefixed message of an [APIError]. *)
Definition get_usage (usage_service : UsageService) : list Z -> route_result * list Z :=
  fun log =>
    match get_current_period_usage completion usage_service log with
    | (Returned body, log') => (Responds body, log')
    | (Raised (MessageParsingError message), log') =>
        (HTTPException BAD_REQUEST ("Failed to parse messages response: " +:+ message), log')
    | (Raised (APIError message _), log') =>
        (HTTPException INTERNAL_SERVER_ERROR
           ("Failed to fetch data: " +:+ ("API request failed: " +:+ message)), log')
    | (Raised e, log') => (Uncaught e, log')
    end.

End Route.

(** ** Vocabulary of the further properties *)

(** The handlers of a chain, in link order. *)
Fixpoint chain_handlers (c : Chain) : list Handler :=
  match c with
  | Link h next =>
      h :: match next with Some n => chain_handlers n | None => [] end
  end.

(** The amount in cents, for a decimal with at most two decimals. *)
Definition cents (d : Decimal) : Z := Decimal.aligned (-2) d.

Definition word_cents (word : str) : Z :=
  if (length word <=? 3)%nat then 10 else if (length word <=? 7)%nat then 20 else 30.

Section Cents.
Context `{Unicode}.

(** The rule chain in integer cents, before the palindrome rule. *)
Definition chain_cents (s : str) : Z :=
  let n := Z.of_nat (length s) in
  let total :=
    100 + 5 * n
    + foldr (fun word acc => word_cents word + acc) 0 (words s)
    + 30 * Z.of_nat (vowel_count s)
    + (if (100 <? n) then 500 else 0)
    - (if bool_decide (NoDup (words s)) then 200 else 0) in
  Z.max 100 total.

Definition rule_cents (s : str) : Z :=
  if _is_palindrome s then 2 * chain_cents s else chain_cents s.

End Cents.

(** The URLs of the two resources. *)
Definition messages_url `{Http} : string := base_url +:+ "/messages/current-period".

Definition report_url `{Http} (report_id : Z) : string :=
  base_url +:+ "/reports/" +:+ pretty report_id.

(** The service of the application: the HTTP client and [Calculator()]. *)
Definition http_service `{Http} : UsageService := get_usage_service Client_init.

(** ** Further sample data *)

(** A server failure: an error status with its response. *)
Definition server_error : Exception :=
  APIError "Failed to fetch report 9999"
    {| http_message := "Server error"; response := Some {| status_code := 500 |} |}.

Definition tenant_or_server_error (rid : Z) : outcome Report :=
  if rid =? 5392 then Returned tenant_report else Raised server_error.

(** An upstream API that serves two messages and report 5392, given how
    the messages request ends. Bodies are named, not spelled out. *)
Definition sample_http (messages_reply : Reply + HTTPError) : @Http iso_text :=
  {| Json := string;
     base_url := "https://api.test";
     http_get := fun url =>
       if String.eqb url "https://api.test/messages/current-period" then messages_reply
       else if String.eqb url "https://api.test/reports/5392"
            then inl {| reply_status := 200; reply_body := "tenant report" |}
            else inl {| reply_status := 404; reply_body := "" |};
     raise_for_status := fun status =>
       if (400 <=? status) && (status <=? 599) then Some "Error response"%string else None;
     response_json := fun body => if String.eqb body "" then None else Some body;
     Report_model_validate := fun j =>
       if String.eqb j "tenant report" then Some tenant_report else None;
     MessagesResponse_model_validate := fun j =>
       if String.eqb j "two messages" then Some [first_message; second_message] else None |}.

(** ** Vocabulary of the rounding and charging properties *)

(** [d] is [c] rounded to two decimals, half up: the same sign, and the
    nearest number of cents in magnitude, the larger one on a tie. *)
Definition rounded_half_up_to_cents (c d : Decimal) : Prop :=
  Decimal.expo d = -2
  /\ if -2 <=? Decimal.expo c
     then Decimal.coef d = Decimal.coef c * 10 ^ (Decimal.expo c + 2)
     else exists n,
       Decimal.coef d = Z.sgn (Decimal.coef c) * n
       /\ 0 <= n
       /\ 2 * n * 10 ^ (-2 - Decimal.expo c) - 10 ^ (-2 - Decimal.expo c)
          <= 2 * Z.abs (Decimal.coef c)
          < 2 * n * 10 ^ (-2 - Decimal.expo c) + 10 ^ (-2 - Decimal.expo c).

(** The cost, in cents, has no more digits than the context holds. *)
Definition fits_cents (d : Decimal) : bool :=
  Z.abs (Decimal.coef (round_cents d)) <? 10 ^ Decimal.prec.

Section Charging.
Context `{Datetime}.

(** The report by which a message of report id [k] is charged after the
    ids [ids] were requested: the last report returned that carries [k]. *)
Definition applied_report (source : Z -> outcome Report) (ids : list Z) (k : Z)
  : option Report :=
  last (List.filter (fun r => Report.id r =? k)
          (omap (fun rid => returned (source rid)) ids)).

(** The entry of the message can be built: it is charged by its text, or
    by a report whose cost can be quantized. *)
Definition chargeable (source : Z -> outcome Report) (ids : list Z) (m : Message) : bool :=
  match Message.report_id m ≫= applied_report source ids with
  | Some r => fits_cents (Report.credit_cost r)
  | None => true
  end.

End Charging.

Section StatedClaims.
Context `{Unicode} `{Datetime}.
Variable completion : list nat.


(** The last clause of C10 as stated: a message whose request was answered
    with a report of another id has no report name. *)
Definition mismatch_falls_back (messages : list Message)
    (source : Z -> outcome Report) : Prop :=
  forall body,
    fst (run (get_current_period_usage completion (serving messages source)))
      = Returned body ->
    forall i m e rid r,
      messages !! i = Some m -> usage body !! i = Some e ->
      Message.report_id m = Some rid -> source rid = Returned r ->
      Report.id r <> rid ->
      UsageEntry.report_name e = None.

(** C7 as stated: with a report, the calculation returns the rounded cost. *)
Definition report_cost_is_returned (message : Message) (r : Report) : Prop :=
  exists d, calculate Calculator_init message (Some r) = Returned d
            /\ rounded_half_up_to_cents (Report.credit_cost r) d.

End StatedClaims.

(** ** Further sample data *)

(** A report whose cost, 1E+26, needs 29 digits in cents. *)
Definition huge_report : Report := Report.mk 5392 "Tenant Obligations Report" (Decimal.mk 1 26).



(** A Report Source that answers 7 with report 8 and 8 with report 7. *)
Definition report_seven : Report := Report.mk 7 "Seven" (Decimal.mk 700 (-2)).
Definition report_eight : Report := Report.mk 8 "Eight" (Decimal.mk 800 (-2)).

Definition swapping (rid : Z) : outcome Report :=
  if rid =? 7 then Returned report_eight
  else if rid =? 8 then Returned report_seven
  else Raised not_found_error.

Definition message_seven : @Message iso_text :=
  @Message.mk iso_text 1 (str_of "Seventh report")
    "2024-01-01T10:00:00+00:00"%string (Some 7).

Definition message_eight : @Message iso_text :=
  @Message.mk iso_text 2 (str_of "Eighth report")
    "2024-01-01T10:05:00+00:00"%string (Some 8).

(** ** Decimal arithmetic *)

Lemma pow10_succ k : 0 <= k -> 10 ^ (k + 1) = 10 * 10 ^ k.
Proof. intros. rewrite Z.pow_add_r by lia. lia. Qed.

Lemma leb_max_l a b : Decimal.leb a (Decimal.max a b) = true.
Proof.
  unfold Decimal.max, Decimal.ltb.
  destruct (Decimal.compare a b) eqn:E; unfold Decimal.leb.
  - unfold Decimal.compare. now rewrite Z.compare_refl.
  - now rewrite E.
  - unfold Decimal.compare. now rewrite Z.compare_refl.
Qed.

Lemma leb_minimum_iff d :
  Decimal.leb MINIMUM_CREDITS d = true <-> at_least_one d.
Proof.
  destruct d as [c e].
  unfold at_least_one, Decimal.leb, Decimal.compare, Decimal.aligned, MINIMUM_CREDITS.
  cbn [Decimal.coef Decimal.expo].
  rewrite <- Z.leb_le, Z.leb_compare.
  destruct (Z_lt_ge_dec e (-1)) as [Hlt|Hge].
  - rewrite Z.min_r by lia. rewrite (Z.max_r 0 (- e)) by lia. rewrite (Z.max_l 0 e) by lia.
    replace (e - e) with 0 by lia. replace (- e) with ((-1 - e) + 1) by lia.
    rewrite pow10_succ by lia. rewrite !Z.pow_0_r, !Z.mul_1_r. reflexivity.
  - rewrite Z.min_l by lia. replace (-1 - -1) with 0 by lia. rewrite Z.pow_0_r.
    destruct (Z.eq_dec e (-1)) as [->|Hne].
    + cbn. reflexivity.
    + rewrite (Z.max_l 0 (- e)) by lia. rewrite (Z.max_r 0 e) by lia.
      replace (e - -1) with (e + 1) by lia. rewrite pow10_succ by lia.
      rewrite Z.pow_0_r.
      assert (0 < 10 ^ e) by (apply Z.pow_pos_nonneg; lia).
      destruct (10 * 1 ?= c * (10 * 10 ^ e)) eqn:E1; destruct (1 ?= c * 10 ^ e) eqn:E2;
        try reflexivity;
        rewrite ?Z.compare_eq_iff, ?Z.compare_lt_iff, ?Z.compare_gt_iff in *; lia.
Qed.

Lemma at_least_one_double d :
  at_least_one d -> at_least_one (Decimal.mul d PALINDROME_MULTIPLIER).
Proof.
  destruct d as [c e]. unfold at_least_one, Decimal.mul, PALINDROME_MULTIPLIER.
  cbn [Decimal.coef Decimal.expo]. intros Hd.
  destruct (Z_lt_ge_dec e 0) as [Hneg|Hpos].
  - rewrite (Z.max_r 0 (- e)), (Z.max_l 0 e), Z.pow_0_r in Hd by lia.
    rewrite (Z.max_r 0 (- (e + -1))), (Z.max_l 0 (e + -1)), Z.pow_0_r by lia.
    replace (- (e + -1)) with (- e + 1) by lia. rewrite pow10_succ by lia.
    assert (0 < 10 ^ (- e)) by (apply Z.pow_pos_nonneg; lia). lia.
  - destruct (Z.eq_dec e 0) as [->|Hne].
    + change (1 <= c * 1) in Hd. change (10 <= c * 20 * 1). lia.
    + rewrite (Z.max_l 0 (- e)), (Z.max_r 0 e), Z.pow_0_r in Hd by lia.
      rewrite (Z.max_l 0 (- (e + -1))), (Z.max_r 0 (e + -1)), Z.pow_0_r by lia.
      replace e with ((e + -1) + 1) in Hd by lia. rewrite pow10_succ in Hd by lia.
      assert (0 < 10 ^ (e + -1)) by (apply Z.pow_pos_nonneg; lia). nia.
Qed.

Lemma round_cents_expo d : Decimal.expo (round_cents d) = -2.
Proof. unfold round_cents, Decimal.rescale. now destruct (_ <=? _). Qed.

Lemma round_cents_at_least_one d :
  at_least_one d -> 100 <= Decimal.coef (round_cents d).
Proof.
  destruct d as [c e]. unfold at_least_one, round_cents, Decimal.rescale, Decimal.aligned.
  cbn [Decimal.coef Decimal.expo]. intros Hd.
  destruct (Z.leb_spec (-2) e) as [Hle|Hlt]; cbn [Decimal.coef].
  - destruct (Z_lt_ge_dec e 0) as [Hneg|Hpos].
    + assert (e = -1 \/ e = -2) as [-> | ->] by lia.
      * change (10 <= c * 1) in Hd. change (100 <= c * 10). lia.
      * change (100 <= c * 1) in Hd. change (100 <= c * 1). lia.
    + rewrite (Z.max_l 0 (- e)), (Z.max_r 0 e), Z.pow_0_r in Hd by lia.
      replace (e - -2) with (e + 2) by lia. rewrite Z.pow_add_r by lia.
      change (10 ^ 2) with 100. lia.
  - rewrite (Z.max_r 0 (- e)), (Z.max_l 0 e), Z.pow_0_r, Z.mul_1_r in Hd by lia.
    replace (- e) with ((-2 - e) + 2) in Hd by lia. rewrite Z.pow_add_r in Hd by lia.
    change (10 ^ 2) with 100 in Hd.
    assert (Hp : 0 < 10 ^ (-2 - e)) by (apply Z.pow_pos_nonneg; lia).
    assert (Hc : 0 < c) by lia.
    rewrite Z.sgn_pos, Z.abs_eq, Z.mul_1_l by lia.
    assert (Hq : 100 <= c / 10 ^ (-2 - e)) by (apply Z.div_le_lower_bound; lia).
    unfold Decimal.round_half_up. destruct (_ <=? _); lia.
Qed.

Lemma round_cents_idempotent d : round_cents (round_cents d) = round_cents d.
Proof.
  unfold round_cents at 1. unfold Decimal.rescale. rewrite round_cents_expo.
  cbn [Z.leb Z.compare]. unfold Decimal.aligned. rewrite round_cents_expo.
  change (-2 - -2) with 0. rewrite Z.pow_0_r, Z.mul_1_r.
  pose proof (round_cents_expo d). destruct (round_cents d) as [c e].
  cbn in *. congruence.
Qed.

(** ROUND_HALF_UP yields the nearest multiple of [10^k], the upper one on
    a tie. *)
Lemma round_half_up_nearest n k :
  0 <= n -> 0 <= k ->
  let q := Decimal.round_half_up n k in
  2 * q * 10 ^ k - 10 ^ k <= 2 * n < 2 * q * 10 ^ k + 10 ^ k.
Proof.
  intros Hn Hk. unfold Decimal.round_half_up.
  assert (Hp : 0 < 10 ^ k) by (apply Z.pow_pos_nonneg; lia).
  pose proof (Z.div_mod n (10 ^ k) ltac:(lia)) as Hdm.
  pose proof (Z.mod_pos_bound n (10 ^ k) Hp) as Hr.
  destruct (Z.leb_spec (10 ^ k) (2 * (n mod 10 ^ k))); cbn zeta; nia.
Qed.

(** ** Quantizing to cents *)

Lemma round_half_up_nonneg n k : 0 <= n -> 0 <= k -> 0 <= Decimal.round_half_up n k.
Proof.
  intros Hn Hk. unfold Decimal.round_half_up.
  assert (Hp : 0 < 10 ^ k) by (apply Z.pow_pos_nonneg; lia).
  assert (Hq : 0 <= n / 10 ^ k) by (apply Z.div_pos; lia).
  destruct (_ <=? _); lia.
Qed.

Lemma round_half_up_unique n k m :
  0 <= n -> 0 <= k ->
  2 * m * 10 ^ k - 10 ^ k <= 2 * n < 2 * m * 10 ^ k + 10 ^ k ->
  m = Decimal.round_half_up n k.
Proof.
  intros Hn Hk Hm. pose proof (round_half_up_nearest n k Hn Hk) as Hq. cbn zeta in Hq.
  assert (Hp : 0 < 10 ^ k) by (apply Z.pow_pos_nonneg; lia).
  set (q := Decimal.round_half_up n k) in *. set (p := 10 ^ k) in *.
  assert (m - q < 1) by nia. assert (q - m < 1) by nia. lia.
Qed.

Lemma round_cents_rounded c : rounded_half_up_to_cents c (round_cents c).
Proof.
  unfold rounded_half_up_to_cents. split; [apply round_cents_expo|].
  unfold round_cents, Decimal.rescale.
  destruct (Z.leb_spec (-2) (Decimal.expo c)) as [Hle|Hlt]; cbn [Decimal.coef].
  - unfold Decimal.aligned.
    replace (Decimal.expo c - -2) with (Decimal.expo c + 2) by lia. reflexivity.
  - exists (Decimal.round_half_up (Z.abs (Decimal.coef c)) (-2 - Decimal.expo c)).
    split; [reflexivity|]. split; [apply round_half_up_nonneg; lia|].
    apply round_half_up_nearest; lia.
Qed.

Lemma rounded_unique c d : rounded_half_up_to_cents c d -> d = round_cents c.
Proof.
  destruct d as [cd ed]. unfold rounded_half_up_to_cents. cbn [Decimal.coef Decimal.expo].
  intros [-> Hc]. unfold round_cents, Decimal.rescale.
  destruct (Z.leb_spec (-2) (Decimal.expo c)) as [Hle|Hlt].
  - rewrite Hc. unfold Decimal.aligned.
    replace (Decimal.expo c - -2) with (Decimal.expo c + 2) by lia. reflexivity.
  - destruct Hc as (n & -> & Hn & Hb). do 2 f_equal.
    apply round_half_up_unique; [lia | lia | exact Hb].
Qed.

Lemma quantized_cases d :
  quantized d = if fits_cents d then Returned (round_cents d) else Raised InvalidOperation.
Proof.
  unfold quantized, quantize_cents, Decimal.quantize, fits_cents, round_cents.
  now destruct (_ <? _).
Qed.

Lemma fits_cents_round d : fits_cents (round_cents d) = fits_cents d.
Proof. unfold fits_cents. now rewrite round_cents_idempotent. Qed.

(** Quantizing a quantized amount again changes nothing. *)
Lemma quantized_again d q : quantized d = Returned q -> quantized q = Returned q.
Proof.
  rewrite !quantized_cases. destruct (fits_cents d) eqn:Hf; [|discriminate].
  intros [= <-]. now rewrite fits_cents_round, Hf, round_cents_idempotent.
Qed.

(** ** The rule chain *)

Section CalculatorFacts.
Context `{Unicode} `{Datetime}.

(** The chain runs its seven handlers in order, each on the credits the
    previous one left, and only the final amount is rounded. *)
Lemma calculate_chain (message : Message) :
  calculate_traced Calculator_init message None =
  (round_cents
     (process PalindromeHandler message (credits_before PalindromeHandler message)),
   [BaseCostHandler; CharacterCountHandler; WordLengthHandler; ThirdVowelsHandler;
    LengthPenaltyHandler; UniqueWordBonusHandler; PalindromeHandler]).
Proof. reflexivity. Qed.

Lemma unique_bonus_floor (message : Message) credits :
  at_least_one (process UniqueWordBonusHandler message credits).
Proof. apply leb_minimum_iff. cbn [process]. apply leb_max_l. Qed.

Lemma palindrome_floor (message : Message) credits :
  at_least_one credits -> at_least_one (process PalindromeHandler message credits).
Proof.
  intros Hc. cbn [process]. destruct (_is_palindrome _); [|exact Hc].
  now apply at_least_one_double.
Qed.

(** C2: on the empty text the running total is 1.0 after the base cost and
    stays 1.00 through the character, word-length, vowel and length-penalty
    rules; the uniqueness bonus applies (no word, no duplicate) and takes it
    to -1.00, which the floor brings back to 1.0; the empty string is a
    palindrome, so the total is doubled and [calculate] returns 2.00. *)
Theorem empty_text_costs_two (i : Z) (ts : datetime) (rid : option Z) :
  let message := Message.mk i [] ts rid in
  credits_before CharacterCountHandler message = Decimal.mk 10 (-1)
  /\ credits_before WordLengthHandler message = Decimal.mk 100 (-2)
  /\ credits_before ThirdVowelsHandler message = Decimal.mk 100 (-2)
  /\ credits_before LengthPenaltyHandler message = Decimal.mk 100 (-2)
  /\ credits_before UniqueWordBonusHandler message = Decimal.mk 100 (-2)
  /\ Decimal.sub (credits_before UniqueWordBonusHandler message) UNIQUE_WORD_DISCOUNT
     = Decimal.mk (-100) (-2)
  /\ credits_before PalindromeHandler message = Decimal.mk 10 (-1)
  /\ _is_palindrome [] = true
  /\ calculate Calculator_init message None = Decimal.mk 200 (-2).
Proof. repeat split; vm_compute; reflexivity. Qed.

(** C6: without a report, [calculate] returns at least 1.00 for every
    message text: the uniqueness handler ends with the floor 1.0, the
    palindrome handler at most doubles, and rounding to cents keeps the
    bound.  The result has two decimals and is never negative. *)
Theorem calculate_at_least_one (message : Message) :
  Decimal.leb (Decimal.mk 100 (-2)) (calculate Calculator_init message None) = true
  /\ 100 <= Decimal.coef (calculate Calculator_init message None)
  /\ Decimal.expo (calculate Calculator_init message None) = -2.
Proof.
  unfold calculate. rewrite calculate_chain. cbn [fst].
  set (d := process PalindromeHandler message _).
  assert (Hd : at_least_one d) by (apply palindrome_floor, unique_bonus_floor).
  pose proof (round_cents_at_least_one d Hd) as Hc.
  pose proof (round_cents_expo d) as He.
  split; [|split]; try assumption.
  unfold Decimal.leb, Decimal.compare, Decimal.aligned. cbn [Decimal.coef Decimal.expo].
  rewrite He. change (Z.min (-2) (-2)) with (-2). change (-2 - -2) with 0.
  rewrite Z.pow_0_r, !Z.mul_1_r.
  destruct (100 ?= _) eqn:E; try reflexivity.
  apply Z.compare_gt_iff in E. lia.
Qed.

(** C7, as the code has it: with a report, [calculate] runs no handler of
    the chain and ends the same way for any two messages.  It returns the
    report's credit cost rounded to two decimals, half up, when that
    amount has at most 28 digits, and the usage entry carries this amount
    unchanged; otherwise the quantize raises [InvalidOperation], and so
    does the construction of the entry. *)
Theorem report_cost_overrides (self : UsageService) (m1 m2 : Message) (r : Report) :
  snd (calculate_traced (calculator self) m1 (Some r)) = []
  /\ calculate (calculator self) m1 (Some r) = calculate (calculator self) m2 (Some r)
  /\ match calculate (calculator self) m1 (Some r) with
     | Returned d =>
         rounded_half_up_to_cents (Report.credit_cost r) d
         /\ Z.abs (Decimal.coef d) < 10 ^ 28
         /\ create_usage_entry self m1 (Some r)
            = Returned
                (UsageEntry.mk (Message.id m1) (isoformat (Message.timestamp m1))
                   (Some (Report.name r)) d)
     | Raised e =>
         e = InvalidOperation
         /\ (forall d, rounded_half_up_to_cents (Report.credit_cost r) d ->
               10 ^ 28 <= Z.abs (Decimal.coef d))
         /\ create_usage_entry self m1 (Some r) = Raised InvalidOperation
     end.
Proof.
  split; [reflexivity|]. split; [reflexivity|].
  unfold create_usage_entry, calculate. cbn [calculate_traced fst].
  destruct (quantized (Report.credit_cost r)) as [d|e] eqn:Hq; cbn [and_then].
  - rewrite (quantized_again _ _ Hq). cbn [and_then].
    rewrite quantized_cases in Hq. unfold fits_cents in Hq.
    destruct (Z.ltb_spec (Z.abs (Decimal.coef (round_cents (Report.credit_cost r))))
                (10 ^ Decimal.prec)) as [Hlt|Hge]; [|discriminate].
    injection Hq as <-. split; [apply round_cents_rounded|]. split; [exact Hlt | reflexivity].
  - rewrite quantized_cases in Hq. unfold fits_cents in Hq.
    destruct (Z.ltb_spec (Z.abs (Decimal.coef (round_cents (Report.credit_cost r))))
                (10 ^ Decimal.prec)) as [Hlt|Hge]; [discriminate|].
    injection Hq as <-. split; [reflexivity|]. split; [|reflexivity].
    intros d Hd. apply rounded_unique in Hd. subst d. exact Hge.
Qed.

End CalculatorFacts.

(** A cost of 25.50 is charged as 25.50, 0.125 as 0.13 and -0.125 as
    -0.13; 1E+25 is the largest power of ten that can be charged. *)
Example report_cost_samples :
  quantized (Report.credit_cost tenant_report) = Returned (Decimal.mk 2550 (-2))
  /\ quantized (Decimal.mk 125 (-3)) = Returned (Decimal.mk 13 (-2))
  /\ quantized (Decimal.mk (-125) (-3)) = Returned (Decimal.mk (-13) (-2))
  /\ quantized (Decimal.mk 5 0) = Returned (Decimal.mk 500 (-2))
  /\ quantized (Decimal.mk 1 25) = Returned (Decimal.mk (10 ^ 27) (-2))
  /\ quantized (Decimal.mk 1 26) = Raised InvalidOperation.
Proof. repeat split; vm_compute; reflexivity. Qed.

(** ** ASCII texts: only the ASCII part of the tables matters *)

Section AsciiTexts.
Context (U : Unicode) `{Datetime}.
Hypothesis U_ascii : ascii_compatible U.

Lemma split_from_ascii s : forall cur,
  ascii_str s -> @split_from U cur s = @split_from ascii_only cur s.
Proof.
  induction s as [|c r IH]; intros cur Hs; [reflexivity|].
  inversion Hs as [|? ? Hc Hr]; subst. cbn [split_from].
  destruct (U_ascii c Hc) as (_ & _ & -> & _). cbn [isspace ascii_only].
  destruct (ascii_isspace c); [destruct cur|]; now rewrite IH.
Qed.

Lemma split_from_chars (P : codepoint -> Prop) `{V : Unicode} s : forall cur,
  Forall P s -> Forall P cur -> Forall (Forall P) (split_from cur s).
Proof.
  induction s as [|c r IH]; intros cur Hs Hcur; cbn [split_from].
  - destruct cur; constructor; [|constructor].
    apply Forall_rev. assumption.
  - inversion Hs as [|? ? Hc Hr]; subst.
    destruct (isspace c).
    + destruct cur; [apply IH; auto|].
      constructor; [apply Forall_rev; assumption | apply IH; auto].
    + apply IH; auto.
Qed.

Lemma existsb_isalpha_ascii w :
  ascii_str w -> existsb (@isalpha U) w = existsb (@isalpha ascii_only) w.
Proof.
  induction 1 as [|c r Hc _ IH]; [reflexivity|]. cbn [existsb].
  destruct (U_ascii c Hc) as (-> & _). now rewrite IH.
Qed.

Lemma words_ascii s : ascii_str s -> @words U s = @words ascii_only s.
Proof.
  intros Hs. unfold words, split. rewrite split_from_ascii by assumption.
  assert (Hw : Forall ascii_str (@split_from ascii_only [] s))
    by (apply split_from_chars; [assumption | constructor]).
  induction Hw as [|w ws Hw _ IH]; [reflexivity|]. cbn [List.filter].
  rewrite existsb_isalpha_ascii, IH by assumption. reflexivity.
Qed.

Lemma cleaned_ascii s : ascii_str s -> @cleaned U s = @cleaned ascii_only s.
Proof.
  unfold cleaned. induction 1 as [|c r Hc _ IH]; [reflexivity|]. cbn [List.filter].
  destruct (U_ascii c Hc) as (_ & -> & _ & Hl). cbn [isalnum ascii_only].
  destruct (ascii_isalnum c); [|exact IH].
  cbn [map concat]. now rewrite Hl, IH.
Qed.

Lemma process_ascii h (message : Message) credits :
  ascii_str (Message.text message) ->
  @process U _ h message credits = @process ascii_only _ h message credits.
Proof.
  intros Hs. destruct h; cbn [process]; try reflexivity.
  - now rewrite words_ascii.
  - now rewrite words_ascii.
  - unfold _is_palindrome. now rewrite cleaned_ascii.
Qed.

Lemma handle_ascii (message : Message) :
  ascii_str (Message.text message) ->
  forall c credits, @handle U _ c message credits = @handle ascii_only _ c message credits.
Proof.
  intros Hs. fix IH 1. intros [h [n|]] credits; cbn [handle].
  - rewrite process_ascii by assumption. now rewrite IH.
  - now rewrite process_ascii.
Qed.

Lemma calculate_ascii self (message : Message) report :
  ascii_str (Message.text message) ->
  @calculate U _ self message report = @calculate ascii_only _ self message report.
Proof.
  intros Hs. unfold calculate, calculate_traced. destruct report; [reflexivity|].
  now rewrite handle_ascii.
Qed.

End AsciiTexts.

Lemma ascii_str_forallb s : forallb is_ascii s = true -> ascii_str s.
Proof.
  unfold ascii_str. induction s as [|c r IH]; cbn [forallb]; intros Hs.
  - apply Forall_nil_2.
  - apply andb_prop in Hs as [Hc Hr]. apply Forall_cons_2; [exact Hc | exact (IH Hr)].
Qed.

(** C8: the four end-to-end vectors, with no report, under any character
    tables that are the ASCII ones below 128. *)
Theorem literal_vectors (U : Unicode) `{Datetime} (i : Z) (ts : datetime) (rid : option Z) :
  ascii_compatible U ->
  let credits s := @calculate U _ Calculator_init (Message.mk i s ts rid) None in
  credits (str_of "What rental amount is specified?") = Decimal.mk 280 (-2)
  /\ credits (str_of "A man a plan a canal Panama") = Decimal.mk 730 (-2)
  /\ credits (repeat (N_of_ascii "x") 101) = Decimal.mk 1870 (-2)
  /\ credits (str_of "The quick brown fox jumps over lazy dog") = Decimal.mk 375 (-2).
Proof.
  intros HU credits. unfold credits.
  repeat split;
    (rewrite (calculate_ascii U HU);
     [vm_compute; reflexivity | apply ascii_str_forallb; vm_compute; reflexivity]).
Qed.

Lemma literal_vectors_witness :
  ascii_compatible ascii_only
  /\ let credits s :=
       @calculate ascii_only iso_text Calculator_init
         (@Message.mk iso_text 2 s "2024-01-01T10:05:00+00:00"%string None) None in
     credits (str_of "What rental amount is specified?") = Decimal.mk 280 (-2)
     /\ credits (str_of "A man a plan a canal Panama") = Decimal.mk 730 (-2)
     /\ credits (repeat (N_of_ascii "x") 101) = Decimal.mk 1870 (-2)
     /\ credits (str_of "The quick brown fox jumps over lazy dog") = Decimal.mk 375 (-2).
Proof.
  assert (Hc : ascii_compatible ascii_only) by (intros c _; repeat split; reflexivity).
  split; [exact Hc|].
  exact (@literal_vectors ascii_only iso_text 2 "2024-01-01T10:05:00+00:00"%string None Hc).
Defined.

(** ** Gathering *)

Section GatherFacts.
Context {A : Type}.

Lemma first_raised_elem completion (outs : list (outcome A)) e :
  first_raised completion outs = Some e -> Raised e ∈ outs.
Proof.
  unfold first_raised. intros Hh. apply head_Some_elem_of in Hh.
  apply elem_of_app in Hh as [Hh|Hh]; apply list_elem_of_omap in Hh as (x & Hx & Hr).
  - destruct (outs !! x) as [o|] eqn:Ho; [|discriminate]. cbn in Hr.
    destruct o; [discriminate|]. injection Hr as ->.
    eapply list_elem_of_lookup_2; eassumption.
  - destruct x; [discriminate|]. injection Hr as ->. assumption.
Qed.

Lemma first_raised_None completion (outs : list (outcome A)) :
  first_raised completion outs = None <-> Forall (fun o => raised o = None) outs.
Proof.
  unfold first_raised. split.
  - intros Hh. apply head_None in Hh. apply app_eq_nil in Hh as [_ Hh].
    apply Forall_forall. intros o Ho. destruct (raised o) as [e|] eqn:E; [|reflexivity].
    assert (He : e ∈ omap raised outs) by (apply list_elem_of_omap; eauto).
    rewrite Hh in He. inversion He.
  - intros Hall. apply head_None.
    assert (H2 : omap raised outs = []).
    { induction Hall as [|o l Ho _ IH]; [reflexivity|]. cbn. now rewrite Ho. }
    rewrite H2, app_nil_r.
    induction completion as [|i l IH]; [reflexivity|]. cbn.
    destruct (outs !! i) as [o|] eqn:E; cbn; [|exact IH].
    rewrite Forall_forall in Hall. rewrite (Hall o); [exact IH|].
    eapply list_elem_of_lookup_2; eassumption.
Qed.

End GatherFacts.

(** The dictionary holds, under each id, the last fetched report that
    carries this id. *)
Lemma report_dict_lookup reports k :
  report_dict reports !! k =
  last (List.filter (fun r => Report.id r =? k) (omap (fun r => r) reports)).
Proof.
  unfold report_dict. generalize (omap (fun r => r) reports). clear reports.
  intros l. induction l as [|r l IH] using rev_ind; [reflexivity|].
  rewrite foldl_app. cbn [foldl]. rewrite List.filter_app. cbn [List.filter].
  destruct (Z.eqb_spec (Report.id r) k) as [->|Hne].
  - rewrite lookup_insert_eq. now rewrite last_snoc.
  - rewrite lookup_insert_ne by assumption. now rewrite app_nil_r.
Qed.

Lemma Forall2_map_diag {A B} (P : A -> B -> Prop) (f : A -> B) (l : list A) :
  (forall x, P x (f x)) -> Forall2 P l (map f l).
Proof. intros Hf. induction l as [|x l IH]; cbn [map]; constructor; auto. Qed.

(** ** Lists of outcomes *)

Section CollectFacts.
Context {A : Type}.

Lemma collect_returned (os : list (outcome A)) :
  is_returned (collect os) = forallb is_returned os.
Proof.
  induction os as [|[a|e] os IH]; cbn [collect and_then forallb is_returned andb];
    [reflexivity | | reflexivity].
  rewrite <- IH. now destruct (collect os).
Qed.

Lemma collect_Forall2 (os : list (outcome A)) : forall l,
  collect os = Returned l -> Forall2 (fun o a => o = Returned a) os l.
Proof.
  induction os as [|[a|e] os IH]; intros l; cbn [collect and_then].
  - intros [= <-]. constructor.
  - destruct (collect os) as [l'|e'] eqn:E; cbn [and_then]; [|discriminate].
    intros [= <-]. constructor; [reflexivity | now apply IH].
  - discriminate.
Qed.

Lemma collect_raised (os : list (outcome A)) e :
  collect os = Raised e -> In (Raised e) os.
Proof.
  induction os as [|[a|e'] os IH]; cbn [collect and_then].
  - discriminate.
  - destruct (collect os) as [l'|e''] eqn:E; cbn [and_then]; [discriminate|].
    intros [= ->]. right. now apply IH.
  - intros [= ->]. now left.
Qed.

End CollectFacts.

Lemma collect_map_Forall2 {A B} (f : A -> outcome B) (l : list A) : forall es,
  collect (map f l) = Returned es -> Forall2 (fun a b => f a = Returned b) l es.
Proof.
  intros es Hc. apply collect_Forall2 in Hc. revert es Hc.
  induction l as [|a l IH]; intros es Hc; inversion Hc; subst; constructor; auto.
Qed.

(** ** The usage service, step by step *)

Section UsageFacts.
Context `{Unicode} `{Datetime}.
Variable completion : list nat.
Variable self : UsageService.

Lemma fetch_report_run rid log :
  fetch_report self rid log = (resolve self rid, log ++ [rid]).
Proof.
  unfold resolve, fetch_report, try_except, mbind, IO_bind, bind, client_reports_get, ret, raise.
  destruct (reports_get (client self) rid) as [r|[m err| | | |]]; try reflexivity.
  destruct (response err) as [resp|]; [|reflexivity].
  destruct (status_code resp =? NOT_FOUND); reflexivity.
Qed.

Lemma start_all_fetch ids : forall log,
  start_all (map (fetch_report self) ids) log = (map (resolve self) ids, log ++ ids).
Proof.
  induction ids as [|rid ids IH]; intros log; cbn [map start_all].
  - now rewrite app_nil_r.
  - rewrite fetch_report_run, IH, <- app_assoc. reflexivity.
Qed.

Lemma fetch_reports_run ids log :
  fetch_reports completion self ids log =
  (match first_raised completion (map (resolve self) ids) with
   | Some e => Raised e
   | None => Returned (report_dict (omap returned (map (resolve self) ids)))
   end, log ++ ids).
Proof.
  destruct ids as [|rid ids].
  - cbn [fetch_reports map]. unfold ret.
    rewrite (proj2 (first_raised_None completion [])) by constructor.
    cbn. now rewrite app_nil_r.
  - unfold fetch_reports, mbind, IO_bind, bind, gather.
    rewrite start_all_fetch.
    destruct (first_raised _ _); reflexivity.
Qed.

Lemma build_usage_run messages log :
  build_usage completion self messages log =
  (match first_raised completion (map (resolve self) (referenced_report_ids messages)) with
   | Some e => Raised e
   | None =>
       and_then
         (collect
            (map (entry_for self (report_dict (omap returned
                    (map (resolve self) (referenced_report_ids messages))))) messages))
         (fun usage_entries => Returned {| usage := usage_entries |})
   end, log ++ referenced_report_ids messages).
Proof.
  unfold build_usage, mbind, IO_bind, bind, lift. rewrite fetch_reports_run.
  destruct (first_raised _ _); [reflexivity|].
  fold (entry_for self (report_dict (omap returned
          (map (resolve self) (referenced_report_ids messages))))).
  destruct (collect _); reflexivity.
Qed.

Lemma resolve_cases rid :
  resolve self rid =
  match reports_get (client self) rid with
  | Returned r => Returned (Some r)
  | Raised (APIError m err) =>
      match response err with
      | None => Raised (AttributeError "response")
      | Some resp =>
          if status_code resp =? NOT_FOUND then Returned None else Raised (APIError m err)
      end
  | Raised e => Raised e
  end.
Proof.
  unfold resolve, fetch_report, try_except, mbind, IO_bind, bind, client_reports_get, ret, raise.
  destruct (reports_get (client self) rid) as [r|[m err| | | |]]; try reflexivity.
  cbn [fst]. destruct (response err) as [resp|]; [|reflexivity].
  destruct (status_code resp =? NOT_FOUND); reflexivity.
Qed.

(** The reports fetched are the reports the source returned, in request
    order. *)
Lemma fetched_list ids :
  omap (fun r => r) (omap returned (map (resolve self) ids))
  = omap (fun rid => returned (reports_get (client self) rid)) ids.
Proof.
  induction ids as [|rid ids IH]; [reflexivity|]. cbn [map omap list_omap].
  rewrite resolve_cases.
  destruct (reports_get (client self) rid) as [r|[m err| | | |]]; cbn; try exact IH.
  - now rewrite <- IH.
  - destruct (response err) as [resp|]; cbn; [|exact IH].
    destruct (status_code resp =? NOT_FOUND); cbn; exact IH.
Qed.

Lemma dict_applied ids k :
  report_dict (omap returned (map (resolve self) ids)) !! k
  = applied_report (reports_get (client self)) ids k.
Proof. unfold applied_report. now rewrite report_dict_lookup, fetched_list. Qed.

Lemma resolve_some_inv rid r :
  resolve self rid = Returned (Some r) -> reports_get (client self) rid = Returned r.
Proof.
  unfold resolve, fetch_report, try_except, mbind, IO_bind, bind, client_reports_get. cbn.
  destruct (reports_get (client self) rid) as [r'|[m err| | | |]]; cbn; try discriminate.
  - now intros [= ->].
  - destruct (response err) as [resp|]; cbn; [|discriminate].
    destruct (status_code resp =? NOT_FOUND); discriminate.
Qed.

Lemma resolved_lookup ids k r :
  report_dict (omap returned (map (resolve self) ids)) !! k = Some r ->
  Report.id r = k /\ exists rid, rid ∈ ids /\ reports_get (client self) rid = Returned r.
Proof.
  rewrite report_dict_lookup. intros Hl. apply last_Some_elem_of in Hl.
  apply list_elem_of_In, filter_In in Hl as [Hin Hid]. apply Z.eqb_eq in Hid.
  split; [exact Hid|].
  apply list_elem_of_In, list_elem_of_omap in Hin as (o & Ho & ->).
  apply list_elem_of_omap in Ho as (out & Hout & Hret).
  apply list_elem_of_In, in_map_iff in Hout as (rid & <- & Hrid).
  exists rid. split; [now apply list_elem_of_In|]. apply resolve_some_inv.
  destruct (resolve self rid); [|discriminate]. cbn in Hret. congruence.
Qed.

Lemma fetched_lookup_some ids rid r :
  rid ∈ ids -> resolve self rid = Returned (Some r) ->
  is_Some (report_dict (omap returned (map (resolve self) ids)) !! Report.id r).
Proof.
  intros Hin Hr. rewrite report_dict_lookup. apply last_is_Some.
  intros Hnil.
  assert (Hf : In r (List.filter (fun r' => Report.id r' =? Report.id r)
                       (omap (fun r => r) (omap returned (map (resolve self) ids))))).
  { apply filter_In. split; [|apply Z.eqb_refl].
    apply list_elem_of_In, list_elem_of_omap. exists (Some r). split; [|reflexivity].
    apply list_elem_of_omap. exists (Returned (Some r)). split; [|reflexivity].
    rewrite <- Hr. apply list_elem_of_In, in_map, list_elem_of_In, Hin. }
  rewrite Hnil in Hf. destruct Hf.
Qed.

Lemma entry_with_report (m : Message) (r : Report) :
  create_usage_entry self m (Some r) =
  and_then (quantized (Report.credit_cost r)) (fun credits =>
    Returned
      (UsageEntry.mk (Message.id m) (isoformat (Message.timestamp m))
         (Some (Report.name r)) credits)).
Proof.
  unfold create_usage_entry, calculate. cbn [calculate_traced fst].
  destruct (quantized (Report.credit_cost r)) as [d|e] eqn:Hq; cbn [and_then]; [|reflexivity].
  now rewrite (quantized_again _ _ Hq).
Qed.

Lemma entry_without_report (m : Message) :
  calculator self = Calculator_init ->
  create_usage_entry self m None =
  Returned
    (UsageEntry.mk (Message.id m) (isoformat (Message.timestamp m)) None
       (calculate Calculator_init m None)).
Proof.
  intros Hc. unfold create_usage_entry. rewrite Hc. do 2 f_equal.
  unfold calculate. rewrite calculate_chain. cbn [fst].
  apply round_cents_idempotent.
Qed.

Lemma entry_for_returned d (m : Message) e :
  entry_for self d m = Returned e ->
  UsageEntry.message_id e = Message.id m
  /\ UsageEntry.timestamp e = isoformat (Message.timestamp m).
Proof.
  unfold entry_for, create_usage_entry.
  destruct (Message.report_id m ≫= _) as [r|]; [|intros [= <-]; auto].
  destruct (calculate _ _ _) as [c|]; cbn [and_then]; [|discriminate].
  destruct (quantized c); cbn [and_then]; [|discriminate]. intros [= <-]. auto.
Qed.

Lemma entries_follow_messages d (l : list Message) es :
  collect (map (entry_for self d) l) = Returned es ->
  length es = length l
  /\ Forall2 (fun m e =>
       UsageEntry.message_id e = Message.id m
       /\ UsageEntry.timestamp e = isoformat (Message.timestamp m))
      l es.
Proof.
  intros Hc. apply collect_map_Forall2 in Hc. rename Hc into Hf.
  split; [symmetry; eapply Forall2_length; exact Hf|].
  eapply Forall2_impl; [exact Hf|]. intros m e. apply entry_for_returned.
Qed.

(** An entry can be built exactly when the message is chargeable. *)
Lemma entry_for_chargeable ids (m : Message) :
  is_returned (entry_for self (report_dict (omap returned (map (resolve self) ids))) m)
  = chargeable (reports_get (client self)) ids m.
Proof.
  unfold entry_for, chargeable.
  destruct (Message.report_id m) as [k|]; cbn [mbind option_bind]; [|reflexivity].
  rewrite dict_applied.
  destruct (applied_report _ ids k) as [r|]; [|reflexivity].
  rewrite entry_with_report, quantized_cases.
  now destruct (fits_cents (Report.credit_cost r)).
Qed.

Lemma entries_chargeable ids (l : list Message) :
  is_returned
    (collect (map (entry_for self (report_dict (omap returned (map (resolve self) ids)))) l))
  = forallb (chargeable (reports_get (client self)) ids) l.
Proof.
  rewrite collect_returned. induction l as [|m l IH]; [reflexivity|].
  cbn [map forallb]. now rewrite entry_for_chargeable, IH.
Qed.

(** Building an entry raises nothing but [InvalidOperation]. *)
Lemma entry_for_raised d (m : Message) e :
  entry_for self d m = Raised e -> e = InvalidOperation.
Proof.
  unfold entry_for. destruct (Message.report_id m ≫= _) as [r|]; [|discriminate].
  rewrite entry_with_report, quantized_cases.
  destruct (fits_cents _); cbn [and_then]; [discriminate|]. now intros [= <-].
Qed.

End UsageFacts.

(** ** The service over given sources *)

Section ServiceFacts.
Context `{Unicode} `{Datetime}.
Variable completion : list nat.
Variable messages : list Message.
Variable source : Z -> outcome Report.

Lemma resolve_returned rid r :
  source rid = Returned r -> resolve (serving messages source) rid = Returned (Some r).
Proof.
  unfold resolve, fetch_report, try_except, mbind, IO_bind, bind, client_reports_get.
  cbn. now intros ->.
Qed.


Lemma resolve_raised rid :
  raised (resolve (serving messages source) rid) = None <-> fatal (source rid) = false.
Proof.
  unfold resolve, fetch_report, try_except, mbind, IO_bind, bind, client_reports_get,
    fatal, signals_not_found. cbn.
  destruct (source rid) as [r|[m err| | | |]]; cbn;
    try (split; discriminate); try tauto.
  destruct (response err) as [resp|]; cbn; [|split; discriminate].
  destruct (status_code resp =? NOT_FOUND); cbn; split; try discriminate; reflexivity.
Qed.

(** An error other than a response-less [APIError] or a not-found is
    raised again as it came. *)
Lemma fatal_error_reraised rid e :
  source rid = Raised e ->
  match e with
  | APIError _ err => exists r, response err = Some r /\ status_code r <> NOT_FOUND
  | _ => True
  end ->
  resolve (serving messages source) rid = Raised e.
Proof.
  unfold resolve, fetch_report, try_except, mbind, IO_bind, bind, client_reports_get.
  cbn. intros ->. destruct e as [m err| | | |]; try reflexivity.
  intros (r & -> & Hr). cbn.
  destruct (Z.eqb_spec (status_code r) NOT_FOUND); [contradiction | reflexivity].
Qed.

Lemma usage_run log :
  get_current_period_usage completion (serving messages source) log =
  (match first_raised completion
           (map (resolve (serving messages source)) (referenced_report_ids messages)) with
   | Some e => Raised e
   | None =>
       and_then
         (collect
            (map (entry_for (serving messages source)
                    (report_dict (omap returned
                       (map (resolve (serving messages source))
                          (referenced_report_ids messages))))) messages))
         (fun usage_entries => Returned {| usage := usage_entries |})
   end, log ++ referenced_report_ids messages).
Proof.
  unfold get_current_period_usage, mbind, IO_bind, bind, client_messages_get_current_period.
  cbn [serving get_usage_service client messages_get_current_period].
  apply build_usage_run.
Qed.

Lemma no_failure_iff :
  first_raised completion
    (map (resolve (serving messages source)) (referenced_report_ids messages)) = None
  <-> forallb (fun rid => negb (fatal (source rid))) (referenced_report_ids messages) = true.
Proof.
  rewrite first_raised_None.
  induction (referenced_report_ids messages) as [|rid ids IH]; cbn [map forallb].
  - split; [reflexivity | constructor].
  - rewrite Forall_cons, andb_true_iff, IH, resolve_raised, negb_true_iff. reflexivity.
Qed.

(** A fatal answer to any request makes the whole run raise: no usage
    list is returned. *)
Lemma fatal_resolution_aborts rid :
  rid ∈ referenced_report_ids messages ->
  fatal (source rid) = true ->
  exists e, fst (run (get_current_period_usage completion (serving messages source)))
            = Raised e.
Proof.
  intros Hin Hf. unfold run. rewrite usage_run. cbn [fst].
  destruct (first_raised _ _) as [e|] eqn:E; [eauto|].
  apply no_failure_iff in E. rewrite forallb_forall in E.
  apply list_elem_of_In in Hin. specialize (E rid Hin). rewrite Hf in E. discriminate.
Qed.


(** The run returns exactly when no resolution is fatal and every message
    is chargeable. *)
Lemma run_returned_iff :
  is_returned (fst (run (get_current_period_usage completion (serving messages source))))
  = forallb (fun rid => negb (fatal (source rid))) (referenced_report_ids messages)
    && forallb (chargeable source (referenced_report_ids messages)) messages.
Proof.
  unfold run. rewrite usage_run. cbn [fst].
  pose proof no_failure_iff as Hiff.
  pose proof (entries_chargeable (serving messages source)
                (referenced_report_ids messages) messages) as Hc.
  cbn [serving get_usage_service client reports_get] in Hc.
  destruct (first_raised _ _) as [e|].
  - cbn [is_returned]. symmetry. apply andb_false_intro1, not_true_is_false.
    intros Ht. apply Hiff in Ht. discriminate.
  - rewrite (proj1 Hiff eq_refl), andb_true_l, <- Hc.
    now destruct (collect _).
Qed.

Lemma requests_count rid :
  count_occ Z.eq_dec (referenced_report_ids messages) rid =
  length (List.filter (fun m => bool_decide (Message.report_id m = Some rid)) messages).
Proof.
  induction messages as [|m l IH]; [reflexivity|].
  unfold referenced_report_ids in *. cbn [omap list_omap List.filter].
  destruct (Message.report_id m) as [k|]; cbn [count_occ].
  - destruct (Z.eq_dec k rid) as [->|Hne].
    + rewrite bool_decide_eq_true_2 by reflexivity. cbn. now rewrite IH.
    + rewrite bool_decide_eq_false_2 by congruence. exact IH.
  - rewrite bool_decide_eq_false_2 by discriminate. exact IH.
Qed.

End ServiceFacts.

(** ** Properties of the usage service *)

Section ServiceClaims.
Context `{Unicode} `{Datetime}.
Variable completion : list nat.

(** C1, as the code has it: the service requests the report of every
    message that carries a report id, once per such message and in message
    order, and requests nothing for a message without one; an id that
    several messages reference is requested once per referencing message.
    When the referenced ids are pairwise distinct this is one request per
    distinct id. *)
Theorem one_request_per_referencing_message messages source :
  let requests :=
    snd (run (get_current_period_usage completion (serving messages source))) in
  requests = referenced_report_ids messages
  /\ (forall rid, count_occ Z.eq_dec requests rid =
        length (List.filter (fun m => bool_decide (Message.report_id m = Some rid))
                  messages))
  /\ (NoDup (referenced_report_ids messages) ->
        one_request_per_distinct_id requests (referenced_report_ids messages)).
Proof.
  unfold run. rewrite usage_run. cbn [snd app]. split; [reflexivity|]. split.
  - apply requests_count.
  - intros Hnd rid. case_bool_decide as Hin.
    + apply NoDup_ListNoDup in Hnd. apply list_elem_of_In in Hin.
      pose proof (proj1 (NoDup_count_occ Z.eq_dec _) Hnd rid) as Hle.
      apply (count_occ_In Z.eq_dec) in Hin. lia.
    + apply count_occ_not_In. now rewrite <- list_elem_of_In.
Qed.


(** C5: the run returns a usage list exactly when no referenced id is
    answered fatally and every message is chargeable; the list then has
    one entry per message, the entry at each position carrying the id and
    the timestamp of the message at that position.  A run that raises
    raises what one of the resolutions raised, or the [InvalidOperation]
    of a message that is not chargeable.  On the empty message list the
    run returns the empty list and issues no report request. *)
Theorem one_entry_per_message messages source :
  let result := fst (run (get_current_period_usage completion (serving messages source))) in
  is_returned result
  = forallb (fun rid => negb (fatal (source rid))) (referenced_report_ids messages)
    && forallb (chargeable source (referenced_report_ids messages)) messages
  /\ match result with
     | Returned response =>
         length (usage response) = length messages
         /\ Forall2 (fun m e =>
              UsageEntry.message_id e = Message.id m
              /\ UsageEntry.timestamp e = isoformat (Message.timestamp m))
              messages (usage response)
     | Raised e =>
         (exists rid, rid ∈ referenced_report_ids messages
            /\ fst (fetch_report (serving messages source) rid []) = Raised e)
         \/ (e = InvalidOperation
             /\ exists m, m ∈ messages
                  /\ chargeable source (referenced_report_ids messages) m = false)
     end
  /\ run (get_current_period_usage completion (serving [] source))
     = (Returned {| usage := [] |}, []).
Proof.
  cbn zeta. split; [apply run_returned_iff|]. split.
  - unfold run. rewrite usage_run. cbn [fst].
    destruct (first_raised _ _) as [e|] eqn:E.
    + left. apply first_raised_elem in E.
      apply list_elem_of_In, in_map_iff in E as (rid & Hr & Hin).
      exists rid. split; [now apply list_elem_of_In | exact Hr].
    + destruct (collect _) as [l|e] eqn:Ec; cbn [and_then usage].
      * exact (entries_follow_messages _ _ _ _ Ec).
      * right. apply collect_raised, in_map_iff in Ec as (m & Hm & Hin).
        split; [exact (entry_for_raised _ _ _ _ Hm)|].
        exists m. split; [now apply list_elem_of_In|].
        pose proof (entry_for_chargeable (serving messages source)
                      (referenced_report_ids messages) m) as Hc.
        rewrite Hm in Hc. symmetry. exact Hc.
  - unfold run. rewrite usage_run. cbn [referenced_report_ids omap list_omap map app].
    rewrite (proj2 (first_raised_None completion [])) by constructor. reflexivity.
Qed.

End ServiceClaims.

Section FetchClaims.
Context `{Unicode} `{Datetime}.
Variable completion : list nat.

(** C9: [fetch_report] tolerates a failure exactly when the Report Source
    raised an [APIError] whose original error has a response with status
    404; when the original error of an [APIError] has no response, reading
    [original_error.response] in the handler fails, and [fetch_report]
    raises [AttributeError]. *)
Theorem not_found_read_from_response (self : UsageService) (rid : Z) (log : list Z) :
  (fst (fetch_report self rid log) = Returned None <->
     exists message err r,
       reports_get (client self) rid = Raised (APIError message err)
       /\ response err = Some r /\ status_code r = NOT_FOUND)
  /\ (forall message err,
        reports_get (client self) rid = Raised (APIError message err) ->
        response err = None ->
        fst (fetch_report self rid log) = Raised (AttributeError "response")).
Proof.
  unfold fetch_report, try_except, mbind, IO_bind, bind, client_reports_get, ret, raise.
  destruct (reports_get (client self) rid) as [r|[m err| | | |]] eqn:E; cbn [fst].
  - split; [split|]; [discriminate | intros (? & ? & ? & [=] & _) | discriminate].
  - destruct (response err) as [resp|] eqn:Er.
    + destruct (Z.eqb_spec (status_code resp) NOT_FOUND) as [Hs|Hs]; cbn [fst].
      * split; [split; [eauto 6 | reflexivity]|]. intros ? ? [= <- <-]. congruence.
      * split; [split; [discriminate|]|].
        -- intros (? & ? & ? & [= <- <-] & Hr & Hc). congruence.
        -- intros ? ? [= <- <-]. congruence.
    + cbn [fst]. split; [split; [discriminate|]|].
      * intros (? & ? & ? & [= <- <-] & Hr & _). congruence.
      * reflexivity.
  - split; [split|]; [discriminate | intros (? & ? & ? & [=] & _) | discriminate].
  - split; [split|]; [discriminate | intros (? & ? & ? & [=] & _) | discriminate].
  - split; [split|]; [discriminate | intros (? & ? & ? & [=] & _) | discriminate].
  - split; [split|]; [discriminate | intros (? & ? & ? & [=] & _) | discriminate].
Qed.

(** C10, as the code has it: the fetched reports are looked up by the id
    they carry.  In a returned usage list, an entry has a report name only
    if some fetched report carries the report id of its message, and then
    name and credits are that report's; whenever some fetched report
    carries it, the entry has the name and the quantized cost of such a
    report; if no fetched report carries it, the entry has no report name
    and the credits of the rule chain.  A request answered with a report
    of another id leads to the fallback only when no other answer carries
    the requested id. *)
Theorem override_keyed_by_returned_id messages source response :
  fst (run (get_current_period_usage completion (serving messages source)))
    = Returned response ->
  Forall2 (fun m e =>
    (forall n, UsageEntry.report_name e = Some n ->
       exists rid r, rid ∈ referenced_report_ids messages
         /\ source rid = Returned r
         /\ Message.report_id m = Some (Report.id r)
         /\ n = Report.name r
         /\ quantized (Report.credit_cost r) = Returned (UsageEntry.credits_used e))
    /\ ((exists rid r, rid ∈ referenced_report_ids messages
           /\ source rid = Returned r /\ Message.report_id m = Some (Report.id r)) ->
        exists rid r, rid ∈ referenced_report_ids messages
          /\ source rid = Returned r
          /\ Message.report_id m = Some (Report.id r)
          /\ UsageEntry.report_name e = Some (Report.name r)
          /\ quantized (Report.credit_cost r) = Returned (UsageEntry.credits_used e))
    /\ ((forall rid r, rid ∈ referenced_report_ids messages ->
           source rid = Returned r -> Message.report_id m <> Some (Report.id r)) ->
        UsageEntry.report_name e = None
        /\ UsageEntry.credits_used e = calculate Calculator_init m None))
    messages (usage response).
Proof.
  unfold run. rewrite usage_run. cbn [fst].
  destruct (first_raised _ _); [discriminate|].
  destruct (collect _) as [l|e0] eqn:Ec; cbn [and_then]; [|discriminate].
  intros [= <-]. cbn [usage]. apply collect_map_Forall2 in Ec.
  eapply Forall2_impl; [exact Ec|]. clear Ec. intros m e. cbn beta.
  unfold entry_for.
  destruct (Message.report_id m) as [k|] eqn:Hk; cbn [mbind option_bind].
  - destruct (report_dict _ !! k) as [r|] eqn:Hr.
    + pose proof Hr as Hr'. apply resolved_lookup in Hr' as (Hid & rid & Hin & Hget).
      cbn [serving get_usage_service client reports_get] in Hget.
      rewrite entry_with_report.
      destruct (quantized (Report.credit_cost r)) as [d|] eqn:Hq; cbn [and_then];
        [|discriminate].
      intros [= <-]. cbn. split; [|split].
      * intros n [= <-]. exists rid, r. rewrite Hid. auto.
      * intros _. exists rid, r. rewrite Hid. auto.
      * intros Hno. exfalso. apply (Hno rid r Hin Hget). now rewrite Hid.
    + rewrite entry_without_report by reflexivity. intros [= <-]. cbn.
      split; [discriminate|]. split; [|auto].
      intros (rid & r & Hin & Hget & [= ->]). exfalso.
      pose proof (fetched_lookup_some (serving messages source) _ rid r Hin
                    (resolve_returned messages source rid r Hget)) as [r' Hr'].
      congruence.
  - rewrite entry_without_report by reflexivity. intros [= <-]. cbn.
    split; [discriminate|]. split; [|auto].
    intros (rid & r & _ & _ & [=]).
Qed.

End FetchClaims.

(** ** The properties on the sample data *)

(** C1, as the specification states it, fails: two messages that
    reference report 5392 make the service request it twice. *)
Lemma same_report_requested_twice :
  ~ one_request_per_distinct_id
      (snd (run (@get_current_period_usage ascii_only iso_text []
                   (serving [first_message; third_message] tenant_or_not_found))))
      (referenced_report_ids [first_message; third_message]).
Proof. intros Hc. specialize (Hc 5392). vm_compute in Hc. discriminate. Qed.

(** C3: when the Report Source cannot be reached, the [APIError] it
    raises wraps an error without response; the run then raises
    [AttributeError], not the error of the source.  Nothing is returned. *)
Theorem connection_failure_raises_attribute_error :
  unreachable 5392 = Raised connect_error
  /\ run (@get_current_period_usage ascii_only iso_text [] (serving [first_message] unreachable))
     = (Raised (AttributeError "response"), [5392])
  /\ AttributeError "response" <> connect_error.
Proof. split; [reflexivity | split; [vm_compute; reflexivity | discriminate]]. Qed.



(** C7, as the specification states it, fails: a cost of 1E+26 is not
    returned rounded, the quantize raises. *)
Lemma huge_cost_is_not_returned :
  ~ @report_cost_is_returned ascii_only iso_text first_message huge_report.
Proof. intros (d & Hd & _). vm_compute in Hd. discriminate. Qed.

Lemma override_keyed_by_returned_id_witness :
  let messages := [first_message; second_message] in
  let response :=
    {| usage :=
         [UsageEntry.mk 1 "2024-01-01T10:00:00+00:00" (Some "Tenant Obligations Report"%string)
            (Decimal.mk 2550 (-2));
          UsageEntry.mk 2 "2024-01-01T10:05:00+00:00" None (Decimal.mk 305 (-2))] |} in
  fst (run (@get_current_period_usage ascii_only iso_text [] (serving messages always_tenant)))
    = Returned response
  /\ Forall2 (fun m e =>
       (forall n, UsageEntry.report_name e = Some n ->
          exists rid r, rid ∈ referenced_report_ids messages
            /\ always_tenant rid = Returned r
            /\ Message.report_id m = Some (Report.id r)
            /\ n = Report.name r
            /\ quantized (Report.credit_cost r) = Returned (UsageEntry.credits_used e))
       /\ ((exists rid r, rid ∈ referenced_report_ids messages
              /\ always_tenant rid = Returned r
              /\ Message.report_id m = Some (Report.id r)) ->
           exists rid r, rid ∈ referenced_report_ids messages
             /\ always_tenant rid = Returned r
             /\ Message.report_id m = Some (Report.id r)
             /\ UsageEntry.report_name e = Some (Report.name r)
             /\ quantized (Report.credit_cost r) = Returned (UsageEntry.credits_used e))
       /\ ((forall rid r, rid ∈ referenced_report_ids messages ->
              always_tenant rid = Returned r -> Message.report_id m <> Some (Report.id r)) ->
           UsageEntry.report_name e = None
           /\ UsageEntry.credits_used e = @calculate ascii_only iso_text Calculator_init m None))
       messages (usage response).
Proof.
  cbn zeta. split; [vm_compute; reflexivity|].
  apply (@override_keyed_by_returned_id ascii_only iso_text []
           [first_message; second_message] always_tenant).
  vm_compute. reflexivity.
Defined.

(** The last clause of C10, as the specification states it, fails: the
    request for 7 is answered with report 8 and the request for 8 with
    report 7, and the message that references 7 is charged by report 7. *)
Lemma swapped_reports_are_applied :
  ~ @mismatch_falls_back ascii_only iso_text [] [message_seven; message_eight] swapping.
Proof.
  intros Hc.
  assert (Hn : UsageEntry.report_name
                 (UsageEntry.mk 1 "2024-01-01T10:00:00+00:00" (Some "Seven"%string)
                    (Decimal.mk 700 (-2))) = None).
  { apply (Hc {| usage :=
                   [UsageEntry.mk 1 "2024-01-01T10:00:00+00:00" (Some "Seven"%string)
                      (Decimal.mk 700 (-2));
                    UsageEntry.mk 2 "2024-01-01T10:05:00+00:00" (Some "Eight"%string)
                      (Decimal.mk 800 (-2))] |}
             ltac:(vm_compute; reflexivity) 0%nat message_seven _ 7 report_eight
             eq_refl eq_refl eq_refl eq_refl).
    discriminate. }
  discriminate.
Qed.

(** The mock of the route tests answers the request for report 9999 with
    report 5392: the second message is charged by its text. *)
Example mismatched_report_is_not_applied :
  fst (run (@get_current_period_usage ascii_only iso_text []
              (serving [first_message; second_message] always_tenant)))
  = Returned
      {| usage :=
           [UsageEntry.mk 1 "2024-01-01T10:00:00+00:00"
              (Some "Tenant Obligations Report"%string) (Decimal.mk 2550 (-2));
            UsageEntry.mk 2 "2024-01-01T10:05:00+00:00" None (Decimal.mk 305 (-2))] |}.
Proof. vm_compute. reflexivity. Qed.

(** The cases of [tests/utils/calculator_tests.py] for the single
    handlers, on the ASCII tables. *)
Example handler_unit_tests :
  let run_handler h m credits := @process ascii_only iso_text h m credits in
  let zero := Decimal.mk 0 (-1) in
  let five := Decimal.mk 50 (-1) in
  run_handler BaseCostHandler (text_message "test message") zero = Decimal.mk 10 (-1)
  /\ run_handler CharacterCountHandler (text_message "test") zero = Decimal.mk 20 (-2)
  /\ run_handler CharacterCountHandler (text_message "test message") zero = Decimal.mk 60 (-2)
  /\ run_handler WordLengthHandler (text_message "a an the") zero = Decimal.mk 3 (-1)
  /\ run_handler WordLengthHandler (text_message "test hello") zero = Decimal.mk 4 (-1)
  /\ run_handler WordLengthHandler (text_message "beautiful excellent") zero
     = Decimal.mk 6 (-1)
  /\ run_handler ThirdVowelsHandler (text_message "xyz") zero = Decimal.mk 0 (-1)
  /\ run_handler ThirdVowelsHandler (text_message "abeba") zero = Decimal.mk 3 (-1)
  /\ run_handler LengthPenaltyHandler (text_message "short message") zero = zero
  /\ run_handler UniqueWordBonusHandler (text_message "") five = Decimal.mk 30 (-1)
  /\ run_handler UniqueWordBonusHandler (text_message "the quick brown fox") five
     = Decimal.mk 30 (-1)
  /\ run_handler UniqueWordBonusHandler (text_message "the the quick quick") five = five
  /\ run_handler PalindromeHandler (text_message "racecar") five = Decimal.mk 1000 (-2)
  /\ run_handler PalindromeHandler (text_message "A man a plan a canal Panama") five
     = Decimal.mk 1000 (-2).
Proof. cbn zeta. repeat split; vm_compute; reflexivity. Qed.

(** ** Further properties of the calculator *)

Section ChainFacts.
Context `{Unicode} `{Datetime}.

(** X1: for any chain of handlers, [handle] applies the [process] of each
    handler once, in link order, each to the credits left by the previous
    one, and runs exactly the handlers of the chain. *)
Theorem handle_is_fold (message : Message) : forall (c : Chain) (credits : Decimal),
  handle c message credits =
  (fold_left (fun acc h => process h message acc) (chain_handlers c) credits,
   chain_handlers c).
Proof.
  fix IH 1. intros [h [n|]] credits; cbn [handle chain_handlers fold_left].
  - now rewrite IH.
  - reflexivity.
Qed.

End ChainFacts.

Lemma distinct_count_le (ws : list str) : (distinct_count ws <= length ws)%nat.
Proof.
  unfold distinct_count. induction ws as [|w ws IH]; cbn [length].
  - rewrite list_to_set_nil, size_empty. lia.
  - rewrite list_to_set_cons, size_union_alt, size_singleton.
    assert (Hsub : (size (list_to_set ws ∖ {[w]} : gset str)
                    <= size (list_to_set ws : gset str))%nat).
    { apply subseteq_size. apply subseteq_difference_l. reflexivity. }
    lia.
Qed.

Lemma distinct_count_NoDup (ws : list str) :
  distinct_count ws = length ws <-> NoDup ws.
Proof.
  split; [|apply size_list_to_set].
  unfold distinct_count. induction ws as [|w ws IH]; cbn [length]; intros Hs.
  - constructor.
  - rewrite list_to_set_cons in Hs.
    destruct (decide (w ∈ ws)) as [Hin|Hnin].
    + exfalso. pose proof (distinct_count_le ws) as Hle. unfold distinct_count in Hle.
      assert (Heq : ({[w]} ∪ list_to_set ws : gset str) = list_to_set ws).
      { apply subseteq_union_1_L, singleton_subseteq_l, elem_of_list_to_set, Hin. }
      rewrite Heq in Hs. lia.
    + constructor; [exact Hnin|]. apply IH.
      rewrite size_union, size_singleton in Hs; [lia|].
      apply disjoint_singleton_l. now rewrite elem_of_list_to_set.
Qed.

Section UniqueFacts.
Context `{Unicode} `{Datetime}.

(** X2: the uniqueness handler takes the discount exactly when no counted
    word occurs twice (the test [len(words) == len(set(words))]), and then
    applies the floor. *)
Theorem unique_bonus_iff_no_duplicate (message : Message) (credits : Decimal) :
  process UniqueWordBonusHandler message credits =
  Decimal.max MINIMUM_CREDITS
    (if bool_decide (NoDup (words (Message.text message)))
     then Decimal.sub credits UNIQUE_WORD_DISCOUNT else credits).
Proof.
  cbn [process]. f_equal.
  destruct (Nat.eqb_spec (length (words (Message.text message)))
              (distinct_count (words (Message.text message)))) as [He|Hne].
  - rewrite bool_decide_eq_true_2; [reflexivity|]. now apply distinct_count_NoDup.
  - rewrite bool_decide_eq_false_2; [reflexivity|].
    intros Hn. apply distinct_count_NoDup in Hn. congruence.
Qed.

End UniqueFacts.

(** ** Amounts in cents *)

Lemma pow10_split a b : 0 <= a -> 0 <= b -> 10 ^ a * 10 ^ b = 10 ^ (a + b).
Proof. intros. now rewrite Z.pow_add_r. Qed.

Lemma cents_add a b :
  -2 <= Decimal.expo a -> -2 <= Decimal.expo b ->
  -2 <= Decimal.expo (Decimal.add a b) /\ cents (Decimal.add a b) = cents a + cents b.
Proof.
  destruct a as [ca ea], b as [cb eb]. unfold cents, Decimal.add, Decimal.aligned.
  cbn [Decimal.coef Decimal.expo]. intros Ha Hb. split; [lia|].
  set (e := Z.min ea eb).
  rewrite Z.mul_add_distr_r, <- !Z.mul_assoc, !pow10_split by lia.
  f_equal; f_equal; f_equal; lia.
Qed.

Lemma cents_sub a b :
  -2 <= Decimal.expo a -> -2 <= Decimal.expo b ->
  -2 <= Decimal.expo (Decimal.sub a b) /\ cents (Decimal.sub a b) = cents a - cents b.
Proof.
  destruct a as [ca ea], b as [cb eb]. unfold cents, Decimal.sub, Decimal.aligned.
  cbn [Decimal.coef Decimal.expo]. intros Ha Hb. split; [lia|].
  set (e := Z.min ea eb).
  rewrite Z.mul_sub_distr_r, <- !Z.mul_assoc, !pow10_split by lia.
  f_equal; f_equal; f_equal; lia.
Qed.

Lemma cents_ltb a b :
  -2 <= Decimal.expo a -> -2 <= Decimal.expo b ->
  Decimal.ltb a b = (cents a <? cents b).
Proof.
  destruct a as [ca ea], b as [cb eb].
  unfold cents, Decimal.ltb, Decimal.compare, Decimal.aligned.
  cbn [Decimal.coef Decimal.expo]. intros Ha Hb.
  set (e := Z.min ea eb).
  assert (Hp : 0 < 10 ^ (e + 2)) by (apply Z.pow_pos_nonneg; lia).
  assert (Hca : ca * 10 ^ (ea - -2) = ca * 10 ^ (ea - e) * 10 ^ (e + 2)).
  { rewrite <- Z.mul_assoc, pow10_split by lia. do 2 f_equal. lia. }
  assert (Hcb : cb * 10 ^ (eb - -2) = cb * 10 ^ (eb - e) * 10 ^ (e + 2)).
  { rewrite <- Z.mul_assoc, pow10_split by lia. do 2 f_equal. lia. }
  rewrite Hca, Hcb.
  destruct (Z.compare_spec (ca * 10 ^ (ea - e)) (cb * 10 ^ (eb - e))) as [He|Hl|Hg];
    symmetry; [apply Z.ltb_ge | apply Z.ltb_lt | apply Z.ltb_ge]; nia.
Qed.

Lemma cents_max a b :
  -2 <= Decimal.expo a -> -2 <= Decimal.expo b ->
  -2 <= Decimal.expo (Decimal.max a b)
  /\ cents (Decimal.max a b) = Z.max (cents a) (cents b).
Proof.
  intros Ha Hb. unfold Decimal.max. rewrite cents_ltb by assumption.
  destruct (Z.ltb_spec (cents a) (cents b)); split; try assumption; lia.
Qed.

Section CentsFacts.
Context `{Unicode} `{Datetime}.

Lemma word_credit_cents w :
  -2 <= Decimal.expo (word_credit w) /\ cents (word_credit w) = word_cents w.
Proof.
  unfold word_credit, word_cents, SHORT_WORD_LENGTH, MEDIUM_WORD_LENGTH.
  destruct (length w <=? 3)%nat; [split; [cbn; lia | reflexivity]|].
  destruct (length w <=? 7)%nat; split; try reflexivity; cbn; lia.
Qed.

Lemma word_fold_cents ws : forall credits,
  -2 <= Decimal.expo credits ->
  let total := fold_left (fun c w => Decimal.add c (word_credit w)) ws credits in
  -2 <= Decimal.expo total
  /\ cents total = cents credits + foldr (fun w acc => word_cents w + acc) 0 ws.
Proof.
  induction ws as [|w ws IH]; intros credits Hc; cbn [fold_left foldr].
  - split; [assumption | lia].
  - destruct (word_credit_cents w) as [Hw Hcw].
    destruct (cents_add credits (word_credit w) Hc Hw) as [He Hs].
    destruct (IH _ He) as [He' Hs']. split; [exact He'|].
    rewrite Hs', Hs, Hcw. lia.
Qed.

Lemma chain_in_cents (message : Message) :
  -2 <= Decimal.expo (credits_before PalindromeHandler message)
  /\ cents (credits_before PalindromeHandler message) = chain_cents (Message.text message).
Proof.
  unfold credits_before. cbn [process].
  set (s := Message.text message).
  set (c1 := Decimal.add (Decimal.mk 0 (-1)) BASE_COST).
  assert (H1 : -2 <= Decimal.expo c1 /\ cents c1 = 100) by (split; [cbn; lia | reflexivity]).
  set (c2 := Decimal.add c1 _).
  assert (H2 : -2 <= Decimal.expo c2 /\ cents c2 = 100 + 5 * Z.of_nat (length s)).
  { destruct H1 as [He Hc]. subst c2.
    destruct (cents_add c1 (Decimal.mul CHARACTER_CREDIT (Decimal.of_nat (length s))) He)
      as [He2 Hc2]; [cbn; lia|].
    split; [exact He2|]. rewrite Hc2, Hc. unfold cents, Decimal.aligned. cbn. lia. }
  set (c3 := fold_left _ (words s) c2).
  assert (H3 : -2 <= Decimal.expo c3
               /\ cents c3 = cents c2 + foldr (fun w acc => word_cents w + acc) 0 (words s))
    by (apply word_fold_cents; tauto).
  set (c4 := Decimal.add c3 _).
  assert (H4 : -2 <= Decimal.expo c4 /\ cents c4 = cents c3 + 30 * Z.of_nat (vowel_count s)).
  { destruct H3 as [He Hc]. subst c4.
    destruct (cents_add c3 (Decimal.mul VOWEL_CREDIT (Decimal.of_nat (vowel_count s))) He)
      as [He2 Hc2]; [cbn; lia|].
    split; [exact He2|]. rewrite Hc2. unfold cents at 2, Decimal.aligned. cbn. lia. }
  set (c5 := if (MAX_LENGTH_WITHOUT_PENALTY <? length s)%nat then _ else c4).
  assert (H5 : -2 <= Decimal.expo c5
               /\ cents c5 = cents c4 + (if 100 <? Z.of_nat (length s) then 500 else 0)).
  { destruct H4 as [He Hc]. subst c5. unfold MAX_LENGTH_WITHOUT_PENALTY.
    destruct (Nat.ltb_spec 100 (length s)) as [Hl|Hl].
    - rewrite (proj2 (Z.ltb_lt 100 (Z.of_nat (length s)))) by lia.
      destruct (cents_add c4 LENGTH_PENALTY He) as [He2 Hc2]; [cbn; lia|].
      split; [exact He2|]. rewrite Hc2. reflexivity.
    - rewrite (proj2 (Z.ltb_ge 100 (Z.of_nat (length s)))) by lia.
      split; [exact He | lia]. }
  destruct (Nat.eqb_spec (length (words s)) (distinct_count (words s))) as [Hu|Hu].
  - destruct H5 as [He Hc].
    destruct (cents_sub c5 UNIQUE_WORD_DISCOUNT He) as [He2 Hc2]; [cbn; lia|].
    destruct (cents_max MINIMUM_CREDITS (Decimal.sub c5 UNIQUE_WORD_DISCOUNT)) as [He3 Hc3];
      [cbn; lia | exact He2 |].
    split; [exact He3|]. rewrite Hc3, Hc2. unfold chain_cents. fold s.
    rewrite bool_decide_eq_true_2 by (apply distinct_count_NoDup; congruence).
    destruct H4 as [_ H4]. destruct H3 as [_ H3]. destruct H2 as [_ H2].
    rewrite Hc, H4, H3, H2.
    change (cents MINIMUM_CREDITS) with 100. change (cents UNIQUE_WORD_DISCOUNT) with 200.
    f_equal; lia.
  - destruct H5 as [He Hc].
    destruct (cents_max MINIMUM_CREDITS c5) as [He3 Hc3]; [cbn; lia | exact He |].
    split; [exact He3|]. rewrite Hc3. unfold chain_cents. fold s.
    rewrite bool_decide_eq_false_2
      by (intros Hn; apply distinct_count_NoDup in Hn; congruence).
    destruct H4 as [_ H4]. destruct H3 as [_ H3]. destruct H2 as [_ H2].
    rewrite Hc, H4, H3, H2.
    change (cents MINIMUM_CREDITS) with 100. f_equal; lia.
Qed.

End CentsFacts.

Lemma round_cents_exact d :
  -2 <= Decimal.expo d -> round_cents d = Decimal.mk (cents d) (-2).
Proof.
  intros Hd. unfold round_cents, Decimal.rescale.
  now rewrite (proj2 (Z.leb_le (-2) (Decimal.expo d))) by assumption.
Qed.

Lemma round_cents_double d :
  -2 <= Decimal.expo d ->
  round_cents (Decimal.mul d PALINDROME_MULTIPLIER) = Decimal.mk (2 * cents d) (-2).
Proof.
  destruct d as [c e]. cbn [Decimal.expo]. intros Hd.
  unfold round_cents, Decimal.rescale, Decimal.mul, PALINDROME_MULTIPLIER, cents,
    Decimal.aligned. cbn [Decimal.coef Decimal.expo].
  destruct (Z.leb_spec (-2) (e + -1)) as [Hle|Hlt]; f_equal.
  - replace (e - -2) with ((e + -1 - -2) + 1) by lia.
    rewrite pow10_succ by lia. lia.
  - assert (e = -2) as -> by lia. change (-2 - (-2 + -1)) with 1.
    change (-2 - -2) with 0. rewrite Z.pow_0_r, Z.mul_1_r.
    unfold Decimal.round_half_up. change (10 ^ 1) with 10.
    replace (Z.abs (c * 20)) with (2 * Z.abs c * 10) by lia.
    rewrite Z.div_mul, Z.mod_mul by lia. change (10 <=? 2 * 0) with false.
    cbv iota. lia.
Qed.

Section FormulaFacts.
Context `{Unicode} `{Datetime}.

Lemma calculate_cents_eq (message : Message) :
  calculate Calculator_init message None
  = Decimal.mk (rule_cents (Message.text message)) (-2).
Proof.
  unfold calculate. rewrite calculate_chain. cbn [fst process].
  destruct (chain_in_cents message) as [He Hc]. unfold rule_cents.
  destruct (_is_palindrome (Message.text message)).
  - rewrite round_cents_double by assumption. now rewrite Hc.
  - rewrite round_cents_exact by assumption. now rewrite Hc.
Qed.

(** X3: without a report, [calculate] is, in cents, the maximum of 100 and
    100 + 5 per character + 10, 20 or 30 per counted word + 30 per vowel in
    a third position + 500 over 100 characters - 200 without duplicate
    word, doubled for a palindrome; the final rounding never changes the
    amount. *)
Theorem calculate_in_cents (message : Message) :
  calculate Calculator_init message None
  = Decimal.mk (rule_cents (Message.text message)) (-2).
Proof. apply calculate_cents_eq. Qed.

Lemma word_sum_bounds (ws : list str) :
  let total := foldr (fun w acc => word_cents w + acc) 0 ws in
  (10 | total) /\ 10 * Z.of_nat (length ws) <= total <= 30 * Z.of_nat (length ws).
Proof.
  induction ws as [|w ws [[k Hk] Hb]]; cbn [foldr length].
  - split; [exists 0; reflexivity | lia].
  - cbn zeta in *. rewrite Hk in *. unfold word_cents.
    destruct (length w <=? 3)%nat; [|destruct (length w <=? 7)%nat].
    + split; [exists (1 + k); lia | lia].
    + split; [exists (2 + k); lia | lia].
    + split; [exists (3 + k); lia | lia].
Qed.

(** X4: the credits of the rule chain are a multiple of 0.05; for a
    palindrome they are a multiple of 0.10 and at least 2.00. *)
Theorem calculate_multiple_of_five_cents (message : Message) :
  (5 | Decimal.coef (calculate Calculator_init message None))
  /\ (_is_palindrome (Message.text message) = true ->
      (10 | Decimal.coef (calculate Calculator_init message None))
      /\ 200 <= Decimal.coef (calculate Calculator_init message None)).
Proof.
  rewrite calculate_cents_eq. cbn [Decimal.coef]. unfold rule_cents.
  set (s := Message.text message).
  assert (H5 : (5 | chain_cents s) /\ 100 <= chain_cents s).
  { unfold chain_cents. split; [|lia].
    destruct (word_sum_bounds (words s)) as [[k Hk] _]. cbn zeta in Hk. rewrite Hk.
    match goal with |- (5 | Z.max 100 ?t) =>
      destruct (Z.max_spec 100 t) as [[_ ->]|[_ ->]] end; [|exists 20; lia].
    destruct (100 <? Z.of_nat (length s)); destruct (bool_decide (NoDup (words s))).
    + exists (20 + Z.of_nat (length s) + 2 * k + 6 * Z.of_nat (vowel_count s) + 100 - 40). lia.
    + exists (20 + Z.of_nat (length s) + 2 * k + 6 * Z.of_nat (vowel_count s) + 100). lia.
    + exists (20 + Z.of_nat (length s) + 2 * k + 6 * Z.of_nat (vowel_count s) - 40). lia.
    + exists (20 + Z.of_nat (length s) + 2 * k + 6 * Z.of_nat (vowel_count s)). lia. }
  destruct H5 as [[k Hk] Hge]. split.
  - destruct (_is_palindrome s); [exists (2 * k); lia | exists k; lia].
  - intros ->. split; [exists k; lia | lia].
Qed.

End FormulaFacts.

(** ** Tokens *)

Section TokenFacts.
Context `{Unicode}.

Lemma split_from_tokens s : forall cur,
  Forall (fun c => isspace c = false) cur ->
  Forall (fun w => w <> [] /\ Forall (fun c => isspace c = false) w) (split_from cur s).
Proof.
  induction s as [|c r IH]; intros cur Hcur; cbn [split_from].
  - destruct cur as [|x cur]; constructor; [|constructor].
    split; [|now apply Forall_rev].
    intros Hr. apply (f_equal (@length codepoint)) in Hr.
    rewrite length_rev in Hr. discriminate.
  - destruct (isspace c) eqn:Hc.
    + destruct cur as [|x cur]; [apply IH; constructor|].
      constructor; [|apply IH; constructor].
      split; [|now apply Forall_rev].
      intros Hr. apply (f_equal (@length codepoint)) in Hr.
      rewrite length_rev in Hr. discriminate.
    + apply IH. now constructor.
Qed.

Lemma split_from_concat s : forall cur,
  concat (split_from cur s) = rev cur ++ List.filter (fun c => negb (isspace c)) s.
Proof.
  induction s as [|c r IH]; intros cur; cbn [split_from List.filter].
  - destruct cur; cbn [concat]; now rewrite ?app_nil_r.
  - destruct (isspace c); cbn [negb].
    + destruct cur as [|x cur]; [apply IH|]. cbn [concat]. now rewrite IH.
    + rewrite IH. cbn [rev]. now rewrite <- app_assoc.
Qed.

Lemma split_from_space_run a b s2 : isspace a = true -> isspace b = true ->
  forall s1 cur, split_from cur (s1 ++ a :: b :: s2) = split_from cur (s1 ++ a :: s2).
Proof.
  intros Ha Hb. induction s1 as [|c r IH]; intros cur; cbn [app split_from].
  - rewrite Ha, Hb. destruct cur; reflexivity.
  - destruct (isspace c); [destruct cur|]; now rewrite IH.
Qed.

Lemma split_from_leading a s : isspace a = true -> split (a :: s) = split s.
Proof. intros Ha. unfold split. cbn [split_from]. now rewrite Ha. Qed.

Lemma split_from_trailing a : isspace a = true ->
  forall s cur, split_from cur (s ++ [a]) = split_from cur s.
Proof.
  intros Ha. induction s as [|c r IH]; intros cur; cbn [app split_from].
  - rewrite Ha. destruct cur; reflexivity.
  - destruct (isspace c); [destruct cur|]; now rewrite IH.
Qed.

(** X5: every counted word is non-empty, contains no whitespace and
    contains a letter; the tokens of a text, put together, are the text
    without its whitespace. *)
Theorem words_are_tokens (s : str) :
  Forall (fun w => w <> [] /\ Forall (fun c => isspace c = false) w
                   /\ existsb isalpha w = true) (words s)
  /\ concat (split s) = List.filter (fun c => negb (isspace c)) s.
Proof.
  split; [|apply (split_from_concat s [])].
  unfold words. pose proof (split_from_tokens s [] (Forall_nil_2 _)) as Ht.
  fold (split s) in Ht. induction Ht as [|w ws [Hne Hsp] _ IH]; cbn [List.filter].
  - constructor.
  - destruct (existsb isalpha w) eqn:Ha; [|exact IH].
    constructor; [tauto | exact IH].
Qed.

(** X6: a whitespace character next to another one, at the start or at
    the end of the text does not change the counted words. *)
Theorem words_ignore_extra_whitespace (a b : codepoint) (s1 s2 : str) :
  isspace a = true -> isspace b = true ->
  words (s1 ++ a :: b :: s2) = words (s1 ++ a :: s2)
  /\ words (a :: s2) = words s2
  /\ words (s1 ++ [a]) = words s1.
Proof.
  intros Ha Hb. unfold words, split.
  rewrite (split_from_space_run a b s2 Ha Hb), (split_from_trailing a Ha).
  fold (split (a :: s2)). rewrite (split_from_leading a s2 Ha). auto.
Qed.

End TokenFacts.

(** ** Every third character *)

Lemma slice_2_3_lookup : forall (k : nat) (s : str),
  slice_2_3 s !! k = s !! (3 * k + 2)%nat.
Proof.
  induction k as [|k IH]; intros s.
  - destruct s as [|x [|y [|z r]]]; reflexivity.
  - replace (3 * S k + 2)%nat with (S (S (S (3 * k + 2)))) by lia.
    destruct s as [|x [|y [|z r]]]; try reflexivity.
    cbn [slice_2_3]. change (slice_2_3 r !! k = r !! (3 * k + 2)%nat). apply IH.
Qed.

Lemma slice_2_3_length (s : str) :
  (3 * length (slice_2_3 s) <= length s < 3 * length (slice_2_3 s) + 3)%nat.
Proof.
  split.
  - destruct (length (slice_2_3 s)) as [|n] eqn:En; [lia|].
    assert (Hs : is_Some (slice_2_3 s !! n)) by (apply lookup_lt_is_Some; lia).
    rewrite slice_2_3_lookup in Hs. apply lookup_lt_is_Some in Hs. lia.
  - assert (Hn : slice_2_3 s !! length (slice_2_3 s) = None)
      by (apply lookup_ge_None; lia).
    rewrite slice_2_3_lookup in Hn. apply lookup_ge_None in Hn. lia.
Qed.

Lemma slice_2_3_div (s : str) : length (slice_2_3 s) = (length s / 3)%nat.
Proof.
  pose proof (slice_2_3_length s) as Hl.
  apply (Nat.div_unique _ 3 _ (length s - 3 * length (slice_2_3 s))); lia.
Qed.

Lemma vowel_count_le (s : str) : (vowel_count s <= length s / 3)%nat.
Proof. rewrite <- slice_2_3_div. unfold vowel_count. apply List.filter_length_le. Qed.

(** X7: the third-vowel handler looks at the characters at the 0-based
    positions 2, 5, 8, ... only; there are [len // 3] of them, so at most
    that many vowels are charged. *)
Theorem third_vowels_positions (s : str) :
  (forall k : nat, slice_2_3 s !! k = s !! (3 * k + 2)%nat)
  /\ length (slice_2_3 s) = (length s / 3)%nat
  /\ (vowel_count s <= length s / 3)%nat.
Proof.
  split; [intros k; apply slice_2_3_lookup|].
  split; [apply slice_2_3_div | apply vowel_count_le].
Qed.

(** ** Palindromes *)

Section PalindromeFacts.
Context `{Unicode} `{Datetime}.


Lemma cleaned_nothing (s : str) :
  Forall (fun c => isalnum c = false) s -> cleaned s = [].
Proof.
  unfold cleaned. induction 1 as [|c r Hc _ IH]; [reflexivity|].
  cbn [List.filter]. now rewrite Hc.
Qed.


(** X9: a text without any letter or digit counts as a palindrome: its
    credits are doubled and are at least 2.00. *)
Theorem no_letter_or_digit_is_doubled (message : Message) :
  Forall (fun c => isalnum c = false) (Message.text message) ->
  _is_palindrome (Message.text message) = true
  /\ calculate Calculator_init message None
     = Decimal.mk (2 * chain_cents (Message.text message)) (-2)
  /\ 200 <= Decimal.coef (calculate Calculator_init message None).
Proof.
  intros Hs.
  assert (Hp : _is_palindrome (Message.text message) = true).
  { unfold _is_palindrome. rewrite cleaned_nothing by assumption. reflexivity. }
  rewrite calculate_cents_eq. unfold rule_cents. rewrite Hp. cbn [Decimal.coef].
  repeat split. unfold chain_cents. lia.
Qed.

End PalindromeFacts.

(** ** Further properties of the usage service *)

Section ServiceExtras.
Context `{Unicode} `{Datetime}.

Lemma tokens_at_most_chars `{V : Unicode} (s : str) : (length (words s) <= length s)%nat.
Proof.
  pose proof (split_from_concat s []) as Hc. fold (split s) in Hc. cbn [rev app] in Hc.
  assert (Hl : forall l : list str, Forall (fun w => w <> []) l ->
                 (length l <= length (concat l))%nat).
  { induction 1 as [|w l Hw _ IH]; [reflexivity|]. cbn [concat length].
    rewrite length_app. destruct w; [contradiction|]. cbn [length]. lia. }
  transitivity (length (split s)); [apply List.filter_length_le|].
  transitivity (length (concat (split s))).
  - apply Hl. pose proof (split_from_tokens s [] (Forall_nil_2 _)) as Ht.
    eapply Forall_impl; [exact Ht|]. cbn. tauto.
  - rewrite Hc. apply List.filter_length_le.
Qed.

Lemma rule_cents_bounds (s : str) :
  100 <= rule_cents s <= 1200 + 90 * Z.of_nat (length s).
Proof.
  unfold rule_cents, chain_cents.
  destruct (word_sum_bounds (words s)) as [_ [_ Hw]]. cbn zeta in Hw.
  pose proof (tokens_at_most_chars s) as Ht.
  pose proof (vowel_count_le s) as Hv.
  assert (Hv' : 3 * Z.of_nat (vowel_count s) <= Z.of_nat (length s)).
  { pose proof (Nat.Div0.mul_div_le (length s) 3). lia. }
  destruct (_is_palindrome s); destruct (100 <? Z.of_nat (length s));
    destruct (bool_decide (NoDup (words s))); lia.
Qed.

(** X10: the credits of the rule chain are at most 12.00 plus 0.90 per
    character. *)
Theorem calculate_upper_bound (message : Message) :
  Decimal.coef (calculate Calculator_init message None)
  <= 1200 + 90 * Z.of_nat (length (Message.text message)).
Proof. rewrite calculate_cents_eq. cbn [Decimal.coef]. apply rule_cents_bounds. Qed.

(** Without a report the quantize of [calculate], and the one of
    [create_usage_entry] after it, do not signal: for a text of fewer than
    10^25 characters the amount of the chain is quantized, with the
    precision of the context checked, to the result of [calculate]. *)
Lemma rule_chain_within_precision (message : Message) :
  Z.of_nat (length (Message.text message)) < 10 ^ 25 ->
  quantized (fst (handle (calculator_handler Calculator_init) message (Decimal.mk 0 (-1))))
  = Returned (calculate Calculator_init message None)
  /\ quantized (calculate Calculator_init message None)
     = Returned (calculate Calculator_init message None).
Proof.
  intros Hlen.
  assert (Hr : round_cents (calculate Calculator_init message None)
               = calculate Calculator_init message None).
  { unfold calculate. rewrite calculate_chain. cbn [fst]. apply round_cents_idempotent. }
  assert (Hh : round_cents
                 (fst (handle (calculator_handler Calculator_init) message
                         (Decimal.mk 0 (-1))))
               = calculate Calculator_init message None) by reflexivity.
  assert (Hfit : fits_cents (calculate Calculator_init message None) = true).
  { unfold fits_cents. rewrite Hr, calculate_cents_eq. cbn [Decimal.coef].
    pose proof (rule_cents_bounds (Message.text message)) as Hb.
    apply Z.ltb_lt. rewrite Z.abs_eq by lia.
    change (10 ^ Decimal.prec) with (1000 * 10 ^ 25). lia. }
  split.
  - rewrite quantized_cases, <- fits_cents_round, Hh, Hfit. reflexivity.
  - rewrite quantized_cases, Hfit, Hr. reflexivity.
Qed.

(** X11: the order in which the gathered report requests finish changes
    neither the requests issued nor whether the run returns, and a
    returned usage list is the same for every order. *)
Theorem completion_order_irrelevant (c1 c2 : list nat) messages source :
  let r1 := run (get_current_period_usage c1 (serving messages source)) in
  let r2 := run (get_current_period_usage c2 (serving messages source)) in
  snd r1 = snd r2
  /\ match fst r1 with
     | Returned body => fst r2 = Returned body
     | Raised _ => is_returned (fst r2) = false
     end.
Proof.
  cbn zeta. unfold run. rewrite !usage_run. cbn [fst snd]. split; [reflexivity|].
  pose proof (no_failure_iff c1 messages source) as H1.
  pose proof (no_failure_iff c2 messages source) as H2.
  destruct (first_raised c1 _) as [e1|]; destruct (first_raised c2 _) as [e2|].
  - reflexivity.
  - assert (Hn : @None Exception = None) by reflexivity.
    apply H2, H1 in Hn. discriminate.
  - assert (Hn : @None Exception = None) by reflexivity.
    apply H1, H2 in Hn. discriminate.
  - now destruct (and_then _ _).
Qed.

(** X12: in a returned usage list every amount has exactly two decimals,
    and an entry without report name is charged at least 1.00. *)
Theorem usage_entries_well_formed completion messages source :
  match fst (run (get_current_period_usage completion (serving messages source))) with
  | Returned body =>
      Forall (fun e =>
        Decimal.expo (UsageEntry.credits_used e) = -2
        /\ (UsageEntry.report_name e = None ->
            100 <= Decimal.coef (UsageEntry.credits_used e)))
        (usage body)
  | Raised _ => True
  end.
Proof.
  unfold run. rewrite usage_run. cbn [fst].
  destruct (first_raised _ _); [exact I|].
  destruct (collect _) as [es|e'] eqn:Ec; cbn [and_then]; [|exact I]. cbn [usage].
  apply collect_map_Forall2 in Ec.
  induction Ec as [|m e l es He _ IH]; constructor; [|exact IH].
  revert He. unfold entry_for. destruct (Message.report_id m ≫= _) as [r|].
  - rewrite entry_with_report, quantized_cases.
    destruct (fits_cents _); cbn [and_then]; [|discriminate]. intros [= <-].
    cbn [UsageEntry.credits_used UsageEntry.report_name].
    split; [apply round_cents_expo | discriminate].
  - rewrite entry_without_report by reflexivity. intros [= <-].
    cbn [UsageEntry.credits_used UsageEntry.report_name].
    unfold calculate. rewrite calculate_chain. cbn [fst].
    split; [apply round_cents_expo|]. intros _.
    apply round_cents_at_least_one, palindrome_floor, unique_bonus_floor.
Qed.

End ServiceExtras.

Section FetchExtras.
Context `{Datetime}.
Variable completion : list nat.
Variable self : UsageService.

Lemma resolve_not_fatal rid :
  fatal (reports_get (client self) rid) = false -> raised (resolve self rid) = None.
Proof.
  rewrite resolve_cases. unfold fatal, signals_not_found.
  destruct (reports_get (client self) rid) as [r|[m err| | | |]]; cbn; try discriminate;
    try reflexivity.
  destruct (response err) as [resp|]; cbn; [|discriminate].
  destruct (status_code resp =? NOT_FOUND); cbn; [reflexivity | discriminate].
Qed.

(** X13: when the Report Source answers every requested id with the
    report of that id or with a tolerated not-found, [fetch_reports]
    returns the mapping that holds, under each requested id, the report
    the source returned for it, and nothing under any other id; repeated
    ids in the request list do not matter. *)
Theorem fetched_reports_faithful (ids : list Z) :
  (forall rid r, rid ∈ ids -> reports_get (client self) rid = Returned r ->
     Report.id r = rid) ->
  (forall rid, rid ∈ ids -> fatal (reports_get (client self) rid) = false) ->
  exists d,
    fst (run (fetch_reports completion self ids)) = Returned d
    /\ forall rid,
         d !! rid = if bool_decide (rid ∈ ids)
                    then returned (reports_get (client self) rid) else None.
Proof.
  intros Hid Hok. eexists. unfold run. rewrite fetch_reports_run. cbn [fst].
  rewrite (proj2 (first_raised_None completion (map (resolve self) ids))).
  2:{ apply Forall_map, Forall_forall. intros rid Hin. now apply resolve_not_fatal, Hok. }
  split; [reflexivity|]. intros rid.
  destruct (report_dict _ !! rid) as [r|] eqn:E.
  - apply resolved_lookup in E as (Hr & rid' & Hin & Hget).
    assert (rid' = rid) as -> by (rewrite <- Hr; symmetry; now apply Hid).
    rewrite bool_decide_eq_true_2 by assumption. now rewrite Hget.
  - case_bool_decide as Hin; [|reflexivity].
    destruct (reports_get (client self) rid) as [r|e] eqn:Hget; [|reflexivity].
    exfalso.
    assert (Hres : resolve self rid = Returned (Some r)) by (rewrite resolve_cases, Hget; reflexivity).
    destruct (fetched_lookup_some self ids rid r Hin Hres) as [r' Hr'].
    rewrite (Hid rid r Hin Hget) in Hr'. congruence.
Qed.

(** X14: when some report resolution raises [e] and every resolution that
    raises raises [e], the run raises [e], whatever the order in which the
    requests finish. *)
Theorem single_failure_raised_unchanged `{Unicode} (messages : list Message) (e : Exception) :
  messages_get_current_period (client self) = Returned messages ->
  (exists rid, rid ∈ referenced_report_ids messages
     /\ fst (fetch_report self rid []) = Raised e) ->
  (forall rid e', rid ∈ referenced_report_ids messages ->
     fst (fetch_report self rid []) = Raised e' -> e' = e) ->
  fst (run (get_current_period_usage completion self)) = Raised e.
Proof.
  intros Hm (rid & Hin & Hr) Hall. unfold run, get_current_period_usage, mbind, IO_bind, bind,
    client_messages_get_current_period. rewrite Hm, build_usage_run. cbn [fst].
  destruct (first_raised _ _) as [e'|] eqn:E.
  - apply first_raised_elem in E.
    apply list_elem_of_In, in_map_iff in E as (rid' & Hr' & Hin').
    f_equal. apply (Hall rid' e'); [now apply list_elem_of_In | exact Hr'].
  - apply first_raised_None in E. rewrite Forall_map, Forall_forall in E.
    specialize (E rid Hin). fold (resolve self rid) in Hr. rewrite Hr in E. discriminate.
Qed.

End FetchExtras.

(** ** The HTTP client and the route *)

Section ClientFacts.
Context `{Unicode} `{Http}.

Lemma Reports_get_cases (report_id : Z) :
  match Reports_get report_id with
  | Returned r =>
      exists reply j,
        http_get (report_url report_id) = inl reply
        /\ raise_for_status (reply_status reply) = None
        /\ response_json (reply_body reply) = Some j
        /\ Report_model_validate j = Some r
  | Raised (APIError m err) =>
      m = "Failed to fetch report " +:+ pretty report_id
      /\ (http_get (report_url report_id) = inr err
          \/ exists reply sm,
               http_get (report_url report_id) = inl reply
               /\ raise_for_status (reply_status reply) = Some sm
               /\ err = {| http_message := sm;
                           response := Some {| status_code := reply_status reply |} |})
  | Raised (ReportParsingError rid m) =>
      rid = report_id
      /\ exists reply,
           http_get (report_url report_id) = inl reply
           /\ raise_for_status (reply_status reply) = None
           /\ match response_json (reply_body reply) with
              | None => m = ReportParsingError_UNEXPECTED_ERROR
              | Some j =>
                  m = ReportParsingError_INVALID_FORMAT /\ Report_model_validate j = None
              end
  | Raised _ => False
  end.
Proof.
  unfold Reports_get, get_json. fold (report_url report_id).
  destruct (http_get (report_url report_id)) as [reply|err]; [|auto].
  destruct (raise_for_status (reply_status reply)) as [sm|] eqn:Hs; [eauto 8|].
  destruct (response_json (reply_body reply)) as [j|] eqn:Hj.
  - destruct (Report_model_validate j) as [r|] eqn:Hv; [eauto 8|].
    split; [reflexivity|]. exists reply. rewrite Hj. auto.
  - split; [reflexivity|]. exists reply. rewrite Hj. auto.
Qed.

(** X15: [Reports.get] returns a report only from a reply that passed
    [raise_for_status], decoded as JSON and validated; it raises an
    [APIError] (with the message naming the id) for a transport or status
    error, a [ReportParsingError] carrying the requested id for a body that
    does not decode or validate, and no other exception. *)
Theorem Reports_get_outcomes (report_id : Z) :
  match Reports_get report_id with
  | Returned r =>
      exists reply j,
        http_get (report_url report_id) = inl reply
        /\ raise_for_status (reply_status reply) = None
        /\ response_json (reply_body reply) = Some j
        /\ Report_model_validate j = Some r
  | Raised (APIError m err) =>
      m = "Failed to fetch report " +:+ pretty report_id
      /\ (http_get (report_url report_id) = inr err
          \/ exists reply sm,
               http_get (report_url report_id) = inl reply
               /\ raise_for_status (reply_status reply) = Some sm
               /\ err = {| http_message := sm;
                           response := Some {| status_code := reply_status reply |} |})
  | Raised (ReportParsingError rid m) =>
      rid = report_id
      /\ exists reply,
           http_get (report_url report_id) = inl reply
           /\ raise_for_status (reply_status reply) = None
           /\ match response_json (reply_body reply) with
              | None => m = ReportParsingError_UNEXPECTED_ERROR
              | Some j =>
                  m = ReportParsingError_INVALID_FORMAT /\ Report_model_validate j = None
              end
  | Raised _ => False
  end.
Proof. apply Reports_get_cases. Qed.

End ClientFacts.

Section RouteFacts.
Context `{Unicode} `{Http}.

Lemma Messages_get_raises e :
  Messages_get_current_period = Raised e ->
  (exists err, e = APIError "Failed to fetch messages" err)
  \/ e = MessageParsingError MessageParsingError_UNEXPECTED_ERROR
  \/ e = MessageParsingError MessageParsingError_INVALID_FORMAT.
Proof.
  unfold Messages_get_current_period.
  destruct (get_json _) as [j|err|]; [|intros [= <-]; eauto|intros [= <-]; auto].
  destruct (MessagesResponse_model_validate j); [discriminate|]. intros [= <-]. auto.
Qed.

Lemma resolve_http_raised rid e :
  resolve http_service rid = Raised e ->
  (exists m err resp, e = APIError m err /\ response err = Some resp
                      /\ status_code resp <> NOT_FOUND)
  \/ (exists m, e = ReportParsingError rid m)
  \/ e = AttributeError "response".
Proof.
  rewrite resolve_cases.
  cbn [http_service get_usage_service client Client_init reports_get].
  pose proof (Reports_get_cases rid) as Ho.
  destruct (Reports_get rid) as [r|[m err|m|rid' m|a|]]; try discriminate; try contradiction.
  - destruct (response err) as [resp|] eqn:Er; [|intros [= <-]; auto].
    destruct (Z.eqb_spec (status_code resp) NOT_FOUND); [discriminate|].
    intros [= <-]. left. eauto 6.
  - destruct Ho as [-> _]. intros [= <-]. eauto.
Qed.

(** X16: over the HTTP client, a reply of status 404 that
    [raise_for_status] rejects resolves to no report, any other rejected
    status raises the [APIError] with that response, and a transport error
    without response raises [AttributeError]; a resolution is tolerated
    only for a status 404. *)
Theorem report_status_handling (rid : Z) (log : list Z) :
  (forall reply sm,
     http_get (report_url rid) = inl reply ->
     raise_for_status (reply_status reply) = Some sm ->
     fst (fetch_report http_service rid log) =
     if reply_status reply =? NOT_FOUND then Returned None
     else Raised (APIError ("Failed to fetch report " +:+ pretty rid)
                    {| http_message := sm;
                       response := Some {| status_code := reply_status reply |} |}))
  /\ (forall err,
        http_get (report_url rid) = inr err -> response err = None ->
        fst (fetch_report http_service rid log) = Raised (AttributeError "response"))
  /\ (fst (fetch_report http_service rid log) = Returned None ->
      exists status,
        status = NOT_FOUND
        /\ ((exists reply sm, http_get (report_url rid) = inl reply
               /\ raise_for_status (reply_status reply) = Some sm
               /\ reply_status reply = status)
            \/ (exists err, http_get (report_url rid) = inr err
                  /\ response err = Some {| status_code := status |}))).
Proof.
  rewrite (fetch_report_run http_service rid log). cbn [fst]. rewrite resolve_cases.
  cbn [http_service get_usage_service client Client_init reports_get].
  unfold Reports_get, get_json. fold (report_url rid).
  split; [|split].
  - intros reply sm -> ->. cbn [response status_code].
    destruct (reply_status reply =? NOT_FOUND); reflexivity.
  - intros err -> ->. reflexivity.
  - destruct (http_get (report_url rid)) as [reply|err].
    + destruct (raise_for_status (reply_status reply)) as [sm|] eqn:Hs.
      * cbn [response status_code].
        destruct (Z.eqb_spec (reply_status reply) NOT_FOUND) as [He|He]; [|discriminate].
        intros _. exists NOT_FOUND. split; [reflexivity|]. left. eauto.
      * destruct (response_json (reply_body reply)) as [j|]; [|discriminate].
        destruct (Report_model_validate j); discriminate.
    + destruct (response err) as [[status]|] eqn:Er; [|discriminate].
      cbn [status_code].
      destruct (Z.eqb_spec status NOT_FOUND) as [->|He]; [|discriminate].
      intros _. exists NOT_FOUND. split; [reflexivity|]. right. exists err. auto.
Qed.

End RouteFacts.

Section RouteClaims.
Context `{Unicode} `{Http}.
Variable completion : list nat.

Lemma http_usage_run log :
  get_current_period_usage completion http_service log =
  match Messages_get_current_period with
  | Returned messages => build_usage completion http_service messages log
  | Raised e => (Raised e, log)
  end.
Proof.
  unfold get_current_period_usage, mbind, IO_bind, bind, client_messages_get_current_period.
  cbn [http_service get_usage_service client Client_init messages_get_current_period].
  destruct Messages_get_current_period; [|reflexivity].
  destruct (build_usage _ _ _ _) as [[?|?] ?]; reflexivity.
Qed.

(** X17: [GET /usage] over the HTTP client answers 400 only when the
    messages payload could not be parsed and 500 only when the run raised
    an [APIError]; the exceptions it lets through are a
    [ReportParsingError], the [AttributeError] of a response-less report
    failure, or the [InvalidOperation] of a report cost that cannot be
    quantized, the latter only when the messages were read and one of them
    is not chargeable. *)
Theorem route_classification (log : list Z) :
  match fst (get_usage completion http_service log) with
  | Responds body =>
      fst (get_current_period_usage completion http_service log) = Returned body
  | HTTPException status detail =>
      (status = BAD_REQUEST
       /\ exists m, Messages_get_current_period = Raised (MessageParsingError m)
            /\ detail = "Failed to parse messages response: " +:+ m)
      \/ (status = INTERNAL_SERVER_ERROR
          /\ exists m err,
               fst (get_current_period_usage completion http_service log)
                 = Raised (APIError m err)
               /\ detail = "Failed to fetch data: " +:+ ("API request failed: " +:+ m))
  | Uncaught e =>
      fst (get_current_period_usage completion http_service log) = Raised e
      /\ ((exists rid m, e = ReportParsingError rid m)
          \/ e = AttributeError "response"
          \/ (e = InvalidOperation
              /\ exists messages m,
                   Messages_get_current_period = Returned messages
                   /\ m ∈ messages
                   /\ chargeable Reports_get (referenced_report_ids messages) m = false))
  end.
Proof.
  unfold get_usage.
  destruct (get_current_period_usage completion http_service log) as [[body|e] log'] eqn:E;
    cbn [fst]; [reflexivity|].
  rewrite http_usage_run in E.
  destruct Messages_get_current_period as [messages|e0] eqn:Em.
  - rewrite build_usage_run in E.
    destruct (first_raised _ _) as [e'|] eqn:Ef.
    + injection E as <- <-.
      apply first_raised_elem in Ef.
      apply list_elem_of_In, in_map_iff in Ef as (rid & Hr & _).
      apply resolve_http_raised in Hr as [(m & err & resp & -> & _)|[(m & ->)| ->]];
        cbn [fst].
      * right. split; [reflexivity|]. eauto.
      * split; [reflexivity|]. left. eauto.
      * split; [reflexivity|]. right. now left.
    + destruct (collect _) as [es|e'] eqn:Ec; cbn [and_then] in E; [discriminate|].
      injection E as <- <-.
      apply collect_raised, in_map_iff in Ec as (m & Hm & Hin).
      pose proof (entry_for_raised _ _ _ _ Hm) as ->. cbn [fst].
      split; [reflexivity|]. right. right. split; [reflexivity|].
      exists messages, m. split; [reflexivity|]. split; [now apply list_elem_of_In|].
      change Reports_get with (reports_get (client http_service)).
      rewrite <- entry_for_chargeable, Hm. reflexivity.
  - injection E as <- <-.
    apply Messages_get_raises in Em as Hs. destruct Hs as [(err & ->)|[-> | ->]]; cbn [fst].
    + right. split; [reflexivity|]. eauto.
    + left. split; [reflexivity|]. eauto.
    + left. split; [reflexivity|]. eauto.
Qed.

(** X18: a messages reply that passes [raise_for_status] but does not
    decode or validate makes [GET /usage] answer 400 with the parsing
    message, and no report is requested. *)
Theorem unparsable_messages_bad_request (reply : Reply) (log : list Z) :
  http_get messages_url = inl reply ->
  raise_for_status (reply_status reply) = None ->
  response_json (reply_body reply) ≫= MessagesResponse_model_validate = None ->
  get_usage completion http_service log =
  (HTTPException BAD_REQUEST
     ("Failed to parse messages response: " +:+
      match response_json (reply_body reply) with
      | None => MessageParsingError_UNEXPECTED_ERROR
      | Some _ => MessageParsingError_INVALID_FORMAT
      end), log).
Proof.
  intros Hg Hs Hv. unfold get_usage. rewrite http_usage_run.
  unfold Messages_get_current_period, get_json. fold messages_url. rewrite Hg, Hs.
  destruct (response_json (reply_body reply)) as [j|]; [|reflexivity].
  cbn [mbind option_bind] in Hv. now rewrite Hv.
Qed.

(** X19: a transport failure of the messages request, or a reply that
    [raise_for_status] rejects, makes [GET /usage] answer 500 with the
    detail of the [APIError], and no report is requested. *)
Theorem unreachable_messages_server_error (log : list Z) :
  (exists err, http_get messages_url = inr err)
  \/ (exists reply sm, http_get messages_url = inl reply
         /\ raise_for_status (reply_status reply) = Some sm) ->
  get_usage completion http_service log =
  (HTTPException INTERNAL_SERVER_ERROR
     "Failed to fetch data: API request failed: Failed to fetch messages", log).
Proof.
  intros Hg. unfold get_usage. rewrite http_usage_run.
  unfold Messages_get_current_period, get_json. fold messages_url.
  destruct Hg as [(err & ->)|(reply & sm & -> & ->)]; reflexivity.
Qed.

End RouteClaims.

(** ** The further properties on the sample data *)

Lemma words_ignore_extra_whitespace_witness :
  @isspace ascii_only 32%N = true /\ @isspace ascii_only 9%N = true
  /\ @words ascii_only (str_of "a" ++ 32%N :: 9%N :: str_of "b")
     = @words ascii_only (str_of "a" ++ 32%N :: str_of "b")
  /\ @words ascii_only (32%N :: str_of "b") = @words ascii_only (str_of "b")
  /\ @words ascii_only (str_of "a" ++ [32%N]) = @words ascii_only (str_of "a").
Proof.
  split; [reflexivity|]. split; [reflexivity|].
  exact (@words_ignore_extra_whitespace ascii_only 32%N 9%N (str_of "a") (str_of "b")
           eq_refl eq_refl).
Defined.


Lemma no_letter_or_digit_is_doubled_witness :
  Forall (fun c => @isalnum ascii_only c = false) (Message.text (text_message "?!"))
  /\ @_is_palindrome ascii_only (Message.text (text_message "?!")) = true
  /\ @calculate ascii_only iso_text Calculator_init (text_message "?!") None
     = Decimal.mk (2 * @chain_cents ascii_only (Message.text (text_message "?!"))) (-2)
  /\ 200 <= Decimal.coef
              (@calculate ascii_only iso_text Calculator_init (text_message "?!") None).
Proof.
  assert (Hs : Forall (fun c => @isalnum ascii_only c = false)
                 (Message.text (text_message "?!")))
    by (repeat constructor).
  split; [exact Hs|].
  exact (@no_letter_or_digit_is_doubled ascii_only iso_text (text_message "?!") Hs).
Defined.

Lemma fetched_reports_faithful_witness :
  let self := serving [first_message; second_message] tenant_or_not_found in
  exists d,
    fst (run (fetch_reports [] self [5392; 9999; 5392])) = Returned d
    /\ forall rid,
         d !! rid = if bool_decide (rid ∈ [5392; 9999; 5392])
                    then returned (reports_get (client self) rid) else None.
Proof.
  apply (@fetched_reports_faithful iso_text []
           (serving [first_message; second_message] tenant_or_not_found)
           [5392; 9999; 5392]).
  - intros rid r Hin.
    apply elem_of_cons in Hin as [->|Hin]; [intros [= <-]; reflexivity|].
    apply elem_of_cons in Hin as [->|Hin]; [discriminate|].
    apply elem_of_cons in Hin as [->|Hin]; [intros [= <-]; reflexivity|].
    inversion Hin.
  - intros rid Hin.
    apply elem_of_cons in Hin as [->|Hin]; [reflexivity|].
    apply elem_of_cons in Hin as [->|Hin]; [reflexivity|].
    apply elem_of_cons in Hin as [->|Hin]; [reflexivity|].
    inversion Hin.
Defined.

Lemma single_failure_raised_unchanged_witness :
  let self := serving [first_message; second_message; third_message] tenant_or_server_error in
  fst (run (@get_current_period_usage ascii_only iso_text [2%nat; 0%nat; 1%nat] self))
  = Raised server_error.
Proof.
  apply (@single_failure_raised_unchanged iso_text [2%nat; 0%nat; 1%nat]
           (serving [first_message; second_message; third_message] tenant_or_server_error)
           ascii_only [first_message; second_message; third_message] server_error).
  - reflexivity.
  - exists 9999. split; [|reflexivity].
    change (9999 ∈ [5392; 9999; 5392]). apply elem_of_cons. right.
    apply elem_of_cons. now left.
  - intros rid e' Hin. change (rid ∈ [5392; 9999; 5392]) in Hin.
    apply elem_of_cons in Hin as [->|Hin]; [discriminate|].
    apply elem_of_cons in Hin as [->|Hin]; [now intros [= <-]|].
    apply elem_of_cons in Hin as [->|Hin]; [discriminate|].
    inversion Hin.
Defined.

Lemma unparsable_messages_bad_request_witness :
  let reply := {| reply_status := 200; reply_body := "not the messages" |} in
  @get_usage ascii_only iso_text [] (@http_service iso_text (sample_http (inl reply))) []
  = (HTTPException 400
       "Failed to parse messages response: Invalid message data format", []).
Proof.
  exact (@unparsable_messages_bad_request ascii_only iso_text
           (sample_http (inl {| reply_status := 200; reply_body := "not the messages" |}))
           [] {| reply_status := 200; reply_body := "not the messages" |} []
           eq_refl eq_refl eq_refl).
Defined.

Lemma unreachable_messages_server_error_witness :
  let err := {| http_message := "All connection attempts failed"; response := None |} in
  @get_usage ascii_only iso_text [] (@http_service iso_text (sample_http (inr err))) []
  = (HTTPException 500
       "Failed to fetch data: API request failed: Failed to fetch messages", []).
Proof.
  apply (@unreachable_messages_server_error ascii_only iso_text
           (sample_http
              (inr {| http_message := "All connection attempts failed"; response := None |}))
           [] []).
  left. eexists. reflexivity.
Defined.

(** The whole path on the sample API: report 5392 is found and charged,
    report 9999 is answered 404 and its message is charged by its text. *)
Example sample_api_usage :
  @get_usage ascii_only iso_text []
    (@http_service iso_text
       (sample_http (inl {| reply_status := 200; reply_body := "two messages" |}))) []
  = (Responds
       {| usage :=
            [UsageEntry.mk 1 "2024-01-01T10:00:00+00:00"
               (Some "Tenant Obligations Report"%string) (Decimal.mk 2550 (-2));
             UsageEntry.mk 2 "2024-01-01T10:05:00+00:00" None (Decimal.mk 305 (-2))] |},
     [5392; 9999]).
Proof. vm_compute. reflexivity. Qed.
